(** * OmniAvatar: the parallel inference driver

    A shallow embedding of [scripts/parallel_inference.py] (the workload
    splitter, the job plan, the process pool loop and the summary) and of
    the job runner of [scripts/speed_benchmark.py], with the properties
    the specification states about them.

    Conventions.
    - A Python [str] is a list of Unicode code points ([N]).
    - A Python [int] is a [Z]; lengths and list indices, which are never
      negative, are [nat].
    - A Python [float] is a primitive binary64 float.
    - A call that may raise returns a [result]; the exceptions are the
      built-in ones the code can meet.
    - The file system is an association list from paths to text, the most
      recent binding first: its files are regular files that are read as
      text, and a write succeeds and stores the text as given (the line
      separator of the platform is "\n"). What a file that is no text, a
      directory or a refused access make of a read or a write is not in
      the model.
    - What the scripts print is left out; the numbers of the printed
      summary are the fields of [summary]. *)

From Stdlib Require Import String Ascii DecimalString DecimalNat.
From Stdlib Require Import List ZArith NArith Lia Bool Permutation Finite.
From Stdlib Require Import Floats.PrimFloat Floats.SpecFloat Floats.FloatOps.
From Stdlib Require Import Floats.FloatAxioms.
From Stdlib Require Import Uint63.
Import ListNotations.

Set Implicit Arguments.

(** ** Exceptions and results *)

Inductive exception : Set :=
| ZeroDivisionError
| ValueError
| IndexError
| FileNotFoundError
| CalledProcessError (returncode : Z) (stdout stderr : list N)
| TimeoutExpired
| UnicodeDecodeError
| OSError.

Inductive result (A : Type) : Type :=
| Ok (a : A)
| Raise (e : exception).

Arguments Ok {A} a.
Arguments Raise {A} e.

Definition bind {A B : Type} (r : result A) (k : A -> result B) : result B :=
  match r with
  | Ok a => k a
  | Raise e => Raise e
  end.

Notation "x <- r ;; k" := (bind r (fun x => k))
  (at level 61, r at next level, right associativity).

(** ** Text *)

Definition char : Set := N.
Definition str : Set := list char.

Definition str_eq_dec : forall s t : str, {s = t} + {s <> t} :=
  list_eq_dec N.eq_dec.

(** A literal of the source, as code points. *)
Definition lit (s : string) : str := map N_of_ascii (list_ascii_of_string s).

Definition LF : char := 10%N.
Definition CR : char := 13%N.

(** [str.isspace] on one code point: the table of CPython's
    [_PyUnicode_IsWhitespace]. *)
Definition isspace (c : char) : bool :=
  ((9 <=? c) && (c <=? 13) ||
   (28 <=? c) && (c <=? 32) ||
   (c =? 133) || (c =? 160) || (c =? 5760) ||
   (8192 <=? c) && (c <=? 8202) ||
   (c =? 8232) || (c =? 8233) || (c =? 8239) || (c =? 8287) ||
   (c =? 12288))%N.

Fixpoint lstrip (s : str) : str :=
  match s with
  | [] => []
  | c :: s' => if isspace c then lstrip s' else s
  end.

Definition rstrip (s : str) : str := rev (lstrip (rev s)).

(** [s.strip()] *)
Definition strip (s : str) : str := rstrip (lstrip s).

(** Truth value of a string: non-empty. *)
Definition truthy (s : str) : bool :=
  match s with
  | [] => false
  | _ :: _ => true
  end.

(** [sep.join(l)] *)
Fixpoint join (sep : str) (l : list str) : str :=
  match l with
  | [] => []
  | [x] => x
  | x :: rest => x ++ sep ++ join sep rest
  end.

(** Reading in text mode with the default [newline=None]: every "\r\n"
    and every lone "\r" arrives as "\n". *)
Fixpoint universal_newlines (s : str) : str :=
  match s with
  | [] => []
  | c :: s' =>
      if (c =? CR)%N then
        match s' with
        | d :: s'' => if (d =? LF)%N then LF :: universal_newlines s''
                      else LF :: universal_newlines s'
        | [] => [LF]
        end
      else c :: universal_newlines s'
  end.

(** [for line in f]: the lines of a text, each with its terminating "\n"
    (the last one has none when the text does not end in "\n"). [cur] is
    the line being read, reversed. *)
Fixpoint iter_lines (cur : str) (s : str) : list str :=
  match s with
  | [] => match cur with
          | [] => []
          | _ :: _ => [rev cur]
          end
  | c :: s' =>
      if (c =? LF)%N then rev (c :: cur) :: iter_lines [] s'
      else iter_lines (c :: cur) s'
  end.

(** [str(n)] for a non-negative int. *)
Definition str_of_nat (n : nat) : str :=
  lit (NilEmpty.string_of_uint (Nat.to_uint n)).

(** [str(z)] *)
Definition str_of_Z (z : Z) : str :=
  if (z <? 0)%Z then lit "-" ++ str_of_nat (Z.to_nat (- z))
  else str_of_nat (Z.to_nat z).

(** ** Lists: [range] and slices *)

(** [range(start, stop, step)] for [step >= 1], by iteration. [fuel]
    bounds the number of elements. *)
Fixpoint range_from (fuel i stop step : nat) : list nat :=
  match fuel with
  | 0 => []
  | S fuel' =>
      if i <? stop then i :: range_from fuel' (i + step) stop step else []
  end.

Definition range3 (start stop step : nat) : list nat :=
  range_from (stop - start) start stop step.

(** [l[i:j]] for [0 <= i <= j]. *)
Definition slice {A : Type} (l : list A) (i j : nat) : list A :=
  firstn (j - i) (skipn i l).

(** [a // b] on ints. *)
Definition floordiv (a b : Z) : result Z :=
  if (b =? 0)%Z then Raise ZeroDivisionError else Ok (a / b)%Z.

(** [a % b] on ints. *)
Definition pymod (a b : Z) : result Z :=
  if (b =? 0)%Z then Raise ZeroDivisionError else Ok (a mod b)%Z.

(** ** The file system *)

Definition filesystem : Type := list (str * str).

Fixpoint fs_read (fs : filesystem) (path : str) : option str :=
  match fs with
  | [] => None
  | (p, c) :: fs' => if str_eq_dec p path then Some c else fs_read fs' path
  end.

(** [open(path, 'w')] then [f.write(text)]: the file is created or
    replaced. *)
Definition fs_write (fs : filesystem) (path text : str) : filesystem :=
  (path, text) :: fs.

(** [os.path.exists(path)] *)
Definition fs_exists (fs : filesystem) (path : str) : bool :=
  match fs_read fs path with
  | Some _ => true
  | None => false
  end.

(** [os.remove(path)] *)
Definition fs_remove (fs : filesystem) (path : str) : filesystem :=
  filter (fun e => if str_eq_dec (fst e) path then false else true) fs.

(** [open(path, 'r')] and the whole text, as the text layer delivers it,
    for a path that is missing or names a file read as text. *)
Definition open_read (fs : filesystem) (path : str) : result str :=
  match fs_read fs path with
  | Some c => Ok (universal_newlines c)
  | None => Raise FileNotFoundError
  end.

(** ** [split_input_file] *)

(** [[line.strip() for line in f if line.strip()]] *)
Definition stripped_lines (text : str) : list str :=
  map strip (filter (fun line => truthy (strip line)) (iter_lines [] text)).

(** [f"{input_file}_chunk_{k}.txt"] *)
Definition chunk_name (input_file : str) (k : nat) : str :=
  input_file ++ lit "_chunk_" ++ str_of_nat k ++ lit ".txt".

(** The body of the loop, on the pair of the file system and the list
    [chunks]. *)
Definition write_chunk (input_file : str) (lines : list str) (chunk_size : nat)
    (st : filesystem * list str) (i : nat) : filesystem * list str :=
  let (fs, chunks) := st in
  let chunk_lines := slice lines i (i + chunk_size) in
  let chunk_file := chunk_name input_file (i / chunk_size) in
  (fs_write fs chunk_file (join [LF] chunk_lines), chunks ++ [chunk_file]).

(** [chunk_size = max(1, len(lines) // num_chunks)] *)
Definition chunk_size_of (lines : list str) (num_chunks : Z) : result nat :=
  q <- floordiv (Z.of_nat (length lines)) num_chunks ;;
  Ok (Z.to_nat (Z.max 1 q)).

Definition split_input_file (fs : filesystem) (input_file : str) (num_chunks : Z)
    : result (filesystem * list str) :=
  text <- open_read fs input_file ;;
  let lines := stripped_lines text in
  chunk_size <- chunk_size_of lines num_chunks ;;
  Ok (fold_left (write_chunk input_file lines chunk_size)
                (range3 0 (length lines) chunk_size) (fs, [])).

(** ** The job plan of [main] *)

(** A job configuration: the tuple
    [(config_file, input_file, output_suffix, gpu_id)]. *)
Record job : Set := mk_job {
  job_config_file : str;
  job_input_file : str;
  job_output_suffix : str;
  job_gpu_id : Z
}.

(** [l[k]] for an int [k >= 0]. *)
Definition index {A : Type} (l : list A) (k : Z) : result A :=
  match nth_error l (Z.to_nat k) with
  | Some a => Ok a
  | None => Raise IndexError
  end.

(** The loop over [enumerate(chunk_files)], from position [i]. *)
Fixpoint chunk_jobs (config : str) (gpu_ids : list Z) (i : nat)
    (chunk_files : list str) : result (list job) :=
  match chunk_files with
  | [] => Ok []
  | chunk_file :: rest =>
      k <- pymod (Z.of_nat i) (Z.of_nat (length gpu_ids)) ;;
      gpu_id <- index gpu_ids k ;;
      jobs <- chunk_jobs config gpu_ids (S i) rest ;;
      Ok (mk_job config chunk_file (lit "chunk_" ++ str_of_nat i) gpu_id :: jobs)
  end.

(** [range(n)] for an int [n]. *)
Definition range1 (n : Z) : list nat := seq 0 (Z.to_nat n).

(** The two nested loops of the branch without [--split_input]. *)
Definition broadcast_jobs (config input_file : str) (gpu_ids : list Z)
    (per_gpu_jobs : Z) : list job :=
  flat_map
    (fun gpu_id =>
       map (fun job_idx =>
              mk_job config input_file
                (lit "gpu" ++ str_of_Z gpu_id ++ lit "_job" ++ str_of_nat job_idx)
                gpu_id)
           (range1 per_gpu_jobs))
    gpu_ids.

Record plan : Type := mk_plan {
  plan_fs : filesystem;
  plan_chunk_files : list str;
  plan_jobs : list job
}.

(** [main] from the device list to the list [jobs]; [gpu_ids] is the list
    that reading [--gpus] gave ([parse_gpus] below). *)
Definition prepare_jobs (fs : filesystem) (config input_file : str)
    (gpu_ids : list Z) (per_gpu_jobs : Z) (split_input : bool) : result plan :=
  let total_processes := (Z.of_nat (length gpu_ids) * per_gpu_jobs)%Z in
  if split_input then
    fc <- split_input_file fs input_file total_processes ;;
    jobs <- chunk_jobs config gpu_ids 0 (snd fc) ;;
    Ok (mk_plan (fst fc) (snd fc) jobs)
  else
    Ok (mk_plan fs [] (broadcast_jobs config input_file gpu_ids per_gpu_jobs)).

(** ** External processes *)

(** What the launched command does, as the caller can observe it: the
    launch fails (the launcher is not installed), or the process exits
    after [duration] seconds with an exit code and its captured output, or
    it never exits. The output of [Exits] is the text the captured bytes
    decode to; [ExitsUndecodable] is a process that exits after writing
    bytes that are no text in the encoding of the locale; [LaunchFails]
    is a launch that fails for another reason than a missing launcher
    (an [OSError]: permissions, resources). *)
Inductive process : Set :=
| CannotLaunch
| Exits (returncode : Z) (stdout stderr : str) (duration : float)
| NeverExits
| ExitsUndecodable (returncode : Z) (duration : float)
| LaunchFails.

(** The three ways a call ends: a value, an exception, or no end at all. *)
Inductive call (A : Type) : Type :=
| Returned (a : A)
| Raised (e : exception)
| Pending.

Arguments Returned {A} a.
Arguments Raised {A} e.
Arguments Pending {A}.

Record completed_process : Set := mk_completed {
  cp_stdout : str;
  cp_stderr : str
}.

(** [subprocess.run(cmd, capture_output=True, text=True, check=True,
    timeout=timeout)]: the child is killed when it outlives [timeout];
    the output of a child that exits in time is decoded before the exit
    code is looked at. *)
Definition subprocess_run (p : process) (timeout : option float)
    : call completed_process :=
  match p with
  | CannotLaunch => Raised FileNotFoundError
  | Exits returncode stdout stderr duration =>
      let expired := match timeout with
                     | Some t => PrimFloat.ltb t duration
                     | None => false
                     end in
      if expired then Raised TimeoutExpired
      else if (returncode =? 0)%Z then Returned (mk_completed stdout stderr)
      else Raised (CalledProcessError returncode stdout stderr)
  | NeverExits =>
      match timeout with
      | Some _ => Raised TimeoutExpired
      | None => Pending
      end
  | ExitsUndecodable _ duration =>
      let expired := match timeout with
                     | Some t => PrimFloat.ltb t duration
                     | None => false
                     end in
      if expired then Raised TimeoutExpired else Raised UnicodeDecodeError
  | LaunchFails => Raised OSError
  end.

(** [time.time() - start_time] once the call is over, on an ideal clock. *)
Definition elapsed_time (p : process) (timeout : option float) : float :=
  match p with
  | CannotLaunch => 0%float
  | Exits _ _ _ duration =>
      match timeout with
      | Some t => if PrimFloat.ltb t duration then t else duration
      | None => duration
      end
  | NeverExits =>
      match timeout with
      | Some t => t
      | None => PrimFloat.infinity
      end
  | ExitsUndecodable _ duration =>
      match timeout with
      | Some t => if PrimFloat.ltb t duration then t else duration
      | None => duration
      end
  | LaunchFails => 0%float
  end.

(** ** [run_inference_job] *)

(** The dict a job returns; ['error'] is present on failure only. *)
Record outcome : Set := mk_outcome {
  r_gpu : Z;
  r_success : bool;
  r_time : float;
  r_file : str;
  r_error : option str
}.

Definition run_inference_job (job_config : job) (p : process) : call outcome :=
  let input_file := job_input_file job_config in
  let gpu_id := job_gpu_id job_config in
  match subprocess_run p None with
  | Returned _ =>
      let elapsed := elapsed_time p None in
      Returned (mk_outcome gpu_id true elapsed input_file None)
  | Raised (CalledProcessError _ _ stderr) =>
      let elapsed := elapsed_time p None in
      Returned (mk_outcome gpu_id false elapsed input_file (Some stderr))
  | Raised e => Raised e
  | Pending => Pending
  end.

(** ** [run_benchmark] of the speed benchmark *)

(** [s[-n:]] for [n >= 1]. *)
Definition last_chars (n : nat) (s : str) : str := skipn (length s - n) s.

Section Benchmark.

(** The metrics scraped from the captured output; how they are read is
    left to [scrape], which may raise as [float(...)] does. *)
Variable metrics : Set.
Variable scrape : str -> result metrics.

Record benchmark : Set := mk_benchmark {
  b_config : str;
  b_description : str;
  b_success : bool;
  b_wall_time : float;
  b_metrics : option metrics;
  b_stdout : option str;
  b_error : option str
}.

Definition benchmark_timeout : float := 1800%float.

Definition run_benchmark (config_file test_input description : str)
    (p : process) : call benchmark :=
  let timeout := Some benchmark_timeout in
  match subprocess_run p timeout with
  | Returned result =>
      let elapsed := elapsed_time p timeout in
      match scrape (cp_stdout result) with
      | Ok m =>
          Returned (mk_benchmark config_file description true elapsed (Some m)
                      (Some (last_chars 1000 (cp_stdout result))) None)
      | Raise e => Raised e
      end
  | Raised TimeoutExpired =>
      let elapsed := elapsed_time p timeout in
      Returned (mk_benchmark config_file description false elapsed None None
                  (Some (lit "timeout")))
  | Raised (CalledProcessError _ _ stderr) =>
      let elapsed := elapsed_time p timeout in
      Returned (mk_benchmark config_file description false elapsed None None
                  (Some (last_chars 500 stderr)))
  | Raised e => Raised e
  | Pending => Pending
  end.

End Benchmark.

(** ** The process pool loop of [main] *)

(** [ProcessPoolExecutor(max_workers=n)] *)
Definition pool_executor (max_workers : Z) : result unit :=
  if (max_workers <=? 0)%Z then Raise ValueError else Ok tt.

(** How the loop over [as_completed] ends. *)
Inductive batch : Set :=
| Completed (results : list outcome)
| Aborted (e : exception) (results : list outcome)
| Stalled (results : list outcome).

(** [for future in as_completed(...)]: [arrivals] lists the jobs the pool
    has started, each with what its process does, in the order the
    futures complete. [future.result()] gives the job's dict or raises
    what the job raised; a job that never returns never arrives, and the
    loop then waits for ever once the others are in. *)
Fixpoint collect (arrivals : list (job * process)) (results : list outcome)
    : batch :=
  match arrivals with
  | [] => Completed results
  | (job_config, p) :: rest =>
      match run_inference_job job_config p with
      | Returned result => collect rest (results ++ [result])
      | Raised e => Aborted e results
      | Pending =>
          match collect rest results with
          | Completed results' => Stalled results'
          | other => other
          end
      end
  end.

(** A process that keeps its worker for ever. *)
Definition never_exits (p : process) : bool :=
  match p with
  | NeverExits => true
  | _ => false
  end.

(** The jobs a pool of [workers] workers gets to start, of the jobs
    submitted in this order: a worker takes the next job when its job is
    over, so nothing is started after the [workers]-th job that never
    returns. *)
Fixpoint started (workers : nat) (submitted : list (job * process))
    : list (job * process) :=
  match workers, submitted with
  | 0, _ => []
  | _, [] => []
  | S free, (job_config, p) :: rest =>
      (job_config, p)
      :: started (if never_exits p then free else workers) rest
  end.

(** ** The summary of [main] *)

(** A length as a float. *)
Definition float_of_nat (n : nat) : float :=
  PrimFloat.of_uint63 (Uint63.of_Z (Z.of_nat n)).

(** [a / b] on floats. *)
Definition truediv (a b : float) : result float :=
  if PrimFloat.is_zero b then Raise ZeroDivisionError else Ok (a / b)%float.

(** [a / n] for a float [a] and a length [n]: [n] is converted to a float,
    which is zero exactly when [n] is. *)
Definition truediv_len (a : float) (n : nat) : result float :=
  if Nat.eqb n 0 then Raise ZeroDivisionError
  else Ok (a / float_of_nat n)%float.

(** [sum(l)]: the floats are added from left to right, starting from 0, as
    Python does up to 3.11 (later versions compensate the rounding of the
    additions). *)
Definition fsum (l : list float) : float :=
  fold_left PrimFloat.add l 0%float.

(** [min] and [max] of a first element and the rest. *)
Definition fmin (x : float) (l : list float) : float :=
  fold_left (fun m y => if PrimFloat.ltb y m then y else m) l x.

Definition fmax (x : float) (l : list float) : float :=
  fold_left (fun m y => if PrimFloat.ltb m y then y else m) l x.

Record job_times : Set := mk_job_times {
  avg_time : float;
  min_time : float;
  max_time : float;
  speedup : float
}.

Record summary : Set := mk_summary {
  total_jobs : nat;
  successful_count : nat;
  failed_jobs : list outcome;
  times : option job_times
}.

Definition summarize (jobs : list job) (results : list outcome)
    (total_time : float) : result summary :=
  let successful_jobs := filter r_success results in
  let failed := filter (fun r => negb (r_success r)) results in
  match map r_time successful_jobs with
  | [] => Ok (mk_summary (length jobs) (length successful_jobs) failed None)
  | t :: ts =>
      avg <- truediv_len (fsum (t :: ts)) (length successful_jobs) ;;
      let mn := fmin t ts in
      let mx := fmax t ts in
      sp <- truediv (fsum (t :: ts)) total_time ;;
      Ok (mk_summary (length jobs) (length successful_jobs) failed
            (Some (mk_job_times avg mn mx sp)))
  end.

(** ** [main] *)

(** The cleanup loop over [chunk_files]. *)
Definition cleanup (fs : filesystem) (chunk_files : list str) : filesystem :=
  fold_left (fun fs chunk_file =>
               if fs_exists fs chunk_file then fs_remove fs chunk_file else fs)
            chunk_files fs.

(** The world [main] runs in: what the process of the [i]-th submitted job
    does, the order in which the futures of the started jobs complete,
    and the time the batch takes. *)
Record world : Type := mk_world {
  spawn : nat -> job -> process;
  completion_order : list (job * process) -> list (job * process);
  batch_time : float
}.

Definition submit_all (w : world) (jobs : list job) : list (job * process) :=
  map (fun ij => (snd ij, spawn w (fst ij) (snd ij)))
      (combine (seq 0 (length jobs)) jobs).

Inductive ending : Type :=
| Crashed (e : exception)
| Hung
| Reported (results : list outcome) (s : summary).

(** A run of [main]: the jobs that were launched (submitted to the
    pool), the file system it leaves and how it ended. *)
Record run : Type := mk_run {
  launched : list job;
  final_fs : filesystem;
  outcome_of_run : ending
}.

Definition main (w : world) (fs : filesystem) (config input_file : str)
    (gpu_ids : list Z) (per_gpu_jobs : Z) (split_input : bool) : run :=
  let total_processes := (Z.of_nat (length gpu_ids) * per_gpu_jobs)%Z in
  match prepare_jobs fs config input_file gpu_ids per_gpu_jobs split_input with
  | Raise e => mk_run [] fs (Crashed e)
  | Ok pl =>
      match pool_executor total_processes with
      | Raise e => mk_run [] (plan_fs pl) (Crashed e)
      | Ok _ =>
          let jobs := plan_jobs pl in
          let running :=
            started (Z.to_nat total_processes) (submit_all w jobs) in
          match collect (completion_order w running) [] with
          | Aborted e _ =>
              (* leaving the [with] block waits for the jobs that run *)
              mk_run jobs (plan_fs pl)
                     (if existsb (fun jp => never_exits (snd jp)) running
                      then Hung else Crashed e)
          | Stalled _ => mk_run jobs (plan_fs pl) Hung
          | Completed results =>
              match summarize jobs results (batch_time w) with
              | Raise e => mk_run jobs (plan_fs pl) (Crashed e)
              | Ok s =>
                  let fs' := if split_input
                             then cleanup (plan_fs pl) (plan_chunk_files pl)
                             else plan_fs pl in
                  mk_run jobs fs' (Reported results s)
              end
          end
      end
  end.
(** ** The command line of [main] *)

Definition COMMA : char := 44%N.

(** [s.split(sep)] for a separator of one character: the pieces between
    the separators, one piece at least. [cur] is the piece being read,
    reversed. *)
Fixpoint split_on (sep : char) (cur : str) (s : str) : list str :=
  match s with
  | [] => [rev cur]
  | c :: s' =>
      if (c =? sep)%N then rev cur :: split_on sep [] s'
      else split_on sep (c :: cur) s'
  end.

(** [[f(x) for x in l]] for an [f] that may raise: the first exception
    ends the comprehension. *)
Fixpoint comprehension {A B : Type} (f : A -> result B) (l : list A)
    : result (list B) :=
  match l with
  | [] => Ok []
  | a :: l' =>
      b <- f a ;;
      bs <- comprehension f l' ;;
      Ok (b :: bs)
  end.

Section CommandLine.

(** [int(s)] for a string [s], as Python converts it. *)
Variable py_int : str -> result Z.

(** [gpu_ids = [int(x.strip()) for x in args.gpus.split(',')]] *)
Definition parse_gpus (gpus : str) : result (list Z) :=
  comprehension (fun x => py_int (strip x)) (split_on COMMA [] gpus).

(** [main] from the values of [--gpus], [--per_gpu_jobs] and
    [--split_input]. *)
Definition main_cli (w : world) (fs : filesystem) (config input_file : str)
    (gpus : str) (per_gpu_jobs : Z) (split_input : bool) : run :=
  match parse_gpus gpus with
  | Raise e => mk_run [] fs (Crashed e)
  | Ok gpu_ids => main w fs config input_file gpu_ids per_gpu_jobs split_input
  end.

End CommandLine.

(** ** The progress lines of [main] *)

(** The numbers of a progress line:
    [(len(results), len(jobs), successful, failed)]. *)
Definition tally (jobs : list job) (results : list outcome)
    : nat * nat * nat * nat :=
  (length results, length jobs,
   length (filter r_success results),
   length (filter (fun r => negb (r_success r)) results)).

(** The lines the loop over [as_completed] prints, one after each result
    appended to [results]; the loop is the one of [collect]. *)
Fixpoint progress (jobs : list job) (arrivals : list (job * process))
    (results : list outcome) : list (nat * nat * nat * nat) :=
  match arrivals with
  | [] => []
  | (job_config, p) :: rest =>
      match run_inference_job job_config p with
      | Returned result =>
          tally jobs (results ++ [result])
          :: progress jobs rest (results ++ [result])
      | Raised _ => []
      | Pending => progress jobs rest results
      end
  end.

(** ** The setup test ([test_setup.py]) *)

(** [prefix] is a prefix of [s]. *)
Fixpoint startswith (s prefix : str) : bool :=
  match prefix, s with
  | [], _ => true
  | _ :: _, [] => false
  | p :: prefix', c :: s' => (p =? c)%N && startswith s' prefix'
  end.

(** [needle in s] on strings. *)
Fixpoint contains (s needle : str) : bool :=
  startswith s needle ||
  match s with
  | [] => false
  | _ :: s' => contains s' needle
  end.

Definition required_files : list str :=
  [lit "configs/inference_1.3B_optimized.yaml";
   lit "examples/infer_samples.txt";
   lit "examples/images/0000.jpeg";
   lit "examples/audios/0000.MP3";
   lit "scripts/inference.py"].

(** The loop of [test_file_existence] over a list of paths, on the flag
    [all_exist]. *)
Definition check_files (fs : filesystem) (files : list str) (all_exist : bool)
    : bool :=
  fold_left (fun all_exist file_path =>
               if fs_exists fs file_path then all_exist else false)
            files all_exist.

Definition test_file_existence (fs : filesystem) : bool :=
  check_files fs required_files true.

Definition wav2vec_path : str := lit "OmniAvatar/models/wav2vec.py".
Definition forward_setting : str := lit "self.config.output_attentions = False".
Definition encode_setting : str := lit "self.config.output_attentions = True".

(** [test_wav2vec_fix]: an exception while the file is read gives
    [False]. *)
Definition test_wav2vec_fix (fs : filesystem) : bool :=
  match open_read fs wav2vec_path with
  | Ok content =>
      if contains content forward_setting then
        if contains content encode_setting then true else false
      else false
  | Raise _ => false
  end.

(** ** Vocabulary of the properties *)

(** The number of elements of [range(0, stop, step)]. *)
Definition chunk_count (stop step : nat) : nat := (stop + step - 1) / step.

(** The [k]-th chunk of [lines]. *)
Definition chunk_lines_at (lines : list str) (chunk_size k : nat) : list str :=
  slice lines (k * chunk_size) (k * chunk_size + chunk_size).

(** The file written for the [k]-th chunk. *)
Definition chunk_write (input_file : str) (lines : list str)
    (chunk_size k : nat) : str * str :=
  (chunk_name input_file k, join [LF] (chunk_lines_at lines chunk_size k)).

(** An item as [split_input_file] keeps it: not empty, on one line, and
    with no space at either end. *)
Definition clean (item : str) : Prop :=
  item <> [] /\ ~ In LF item /\ ~ In CR item /\ strip item = item.

(** Reading a workload as [split_input_file] reads its input. *)
Definition read_prompts (fs : filesystem) (path : str) : result (list str) :=
  text <- open_read fs path ;;
  Ok (stripped_lines text).

(** The job of the chunk at position [i]. *)
Definition chunk_job (config : str) (gpu_ids : list Z) (i : nat)
    (chunk_file : str) : job :=
  mk_job config chunk_file (lit "chunk_" ++ str_of_nat i)
         (nth (i mod length gpu_ids) gpu_ids 0%Z).

(** The outcome of a job whose process exits. *)
Definition exit_outcome (job_config : job) (returncode : Z) (stderr : str)
    (duration : float) : outcome :=
  if (returncode =? 0)%Z
  then mk_outcome (job_gpu_id job_config) true duration
                  (job_input_file job_config) None
  else mk_outcome (job_gpu_id job_config) false duration
                  (job_input_file job_config) (Some stderr).

(** The times of a summary, or the exception of the summary. *)
Definition times_of (r : result summary) : result (option job_times) :=
  s <- r ;; Ok (times s).

(** ** Inputs of the examples *)

(** A workload of five prompts. *)
Definition five_prompts : filesystem :=
  [(lit "prompts.txt", join [LF] [lit "a"; lit "b"; lit "c"; lit "d"; lit "e"])].

(** A file with blank lines only. *)
Definition blank_prompts : filesystem :=
  [(lit "prompts.txt", [LF; 32; LF; 9; 32; LF]%N)].

(** A source with a blank line and spaces around its two prompts. *)
Definition spaced_prompts : str := lit "  a " ++ [LF; LF] ++ lit " b" ++ [LF].

(** A job on device 0. *)
Definition job0 : job :=
  mk_job (lit "c.yaml") (lit "prompts.txt") (lit "gpu0_job0") 0.

(** Four jobs; the process of the second one cannot be launched. *)
Definition four_jobs : list (job * process) :=
  [(mk_job (lit "c.yaml") (lit "p_chunk_0.txt") (lit "chunk_0") 0,
    Exits 0 [] [] 2%float);
   (mk_job (lit "c.yaml") (lit "p_chunk_1.txt") (lit "chunk_1") 1,
    CannotLaunch);
   (mk_job (lit "c.yaml") (lit "p_chunk_2.txt") (lit "chunk_2") 2,
    Exits 0 [] [] 4%float);
   (mk_job (lit "c.yaml") (lit "p_chunk_3.txt") (lit "chunk_3") 3,
    Exits 0 [] [] 6%float)].

(** Four jobs that exit, the second one with code 1. *)
Definition four_exits : list (job * process) :=
  [(mk_job (lit "c.yaml") (lit "p_chunk_0.txt") (lit "chunk_0") 0,
    Exits 0 [] [] 2%float);
   (mk_job (lit "c.yaml") (lit "p_chunk_1.txt") (lit "chunk_1") 1,
    Exits 1 [] (lit "out of memory") 3%float);
   (mk_job (lit "c.yaml") (lit "p_chunk_2.txt") (lit "chunk_2") 2,
    Exits 0 [] [] 4%float);
   (mk_job (lit "c.yaml") (lit "p_chunk_3.txt") (lit "chunk_3") 3,
    Exits 0 [] [] 6%float)].

(** Three successful outcomes of 2, 4 and 6 seconds and a failed one of
    100 seconds, in a batch of 6 seconds. *)
Definition three_successes : list outcome :=
  [mk_outcome 0 true 2%float (lit "p_chunk_0.txt") None;
   mk_outcome 1 false 100%float (lit "p_chunk_1.txt") (Some (lit "killed"));
   mk_outcome 2 true 4%float (lit "p_chunk_2.txt") None;
   mk_outcome 3 true 6%float (lit "p_chunk_3.txt") None].

(** Successful outcomes whose shortest time is not the first and whose
    longest is not the last, and a failed one shorter than all. *)
Definition unsorted_successes : list outcome :=
  [mk_outcome 0 true 4%float (lit "p_chunk_0.txt") None;
   mk_outcome 1 false 1%float (lit "p_chunk_1.txt") (Some (lit "killed"));
   mk_outcome 2 true 2%float (lit "p_chunk_2.txt") None;
   mk_outcome 3 true 6%float (lit "p_chunk_3.txt") None;
   mk_outcome 0 true 3%float (lit "p_chunk_4.txt") None].

(** A world where every job exits at once with code 0. *)
Definition quiet_world : world :=
  mk_world (fun _ _ => Exits 0 [] [] 1%float) (fun l => l) 1%float.

(** A world where the process of the second job cannot be launched. *)
Definition failing_world : world :=
  mk_world (fun i _ => if Nat.eqb i 1 then CannotLaunch
                       else Exits 0 [] [] 2%float)
           (fun l => l) 6%float.

(** A world where the launcher is missing. *)
Definition no_launcher : world :=
  mk_world (fun _ _ => CannotLaunch) (fun l => l) 1%float.

(** An [int] for the examples: it reads the literals made of the digits 0
    to 9 and refuses every other string. *)
Fixpoint digits_value (acc : Z) (s : str) : result Z :=
  match s with
  | [] => Ok acc
  | c :: s' =>
      if ((48 <=? c) && (c <=? 57))%N
      then digits_value (10 * acc + Z.of_N (c - 48)) s'
      else Raise ValueError
  end.

Definition int_of_digits (s : str) : result Z :=
  match s with
  | [] => Raise ValueError
  | _ :: _ => digits_value 0 s
  end.

(** * Properties *)

(** ** [range] and slices *)

Lemma chunk_count_le (stop step a : nat) :
  1 <= step -> stop <= a * step -> chunk_count stop step <= a.
Proof.
  intros Hs Hle. unfold chunk_count.
  apply Nat.lt_succ_r, Nat.Div0.div_lt_upper_bound. nia.
Qed.

Lemma chunk_count_gt (stop step a : nat) :
  1 <= step -> a * step < stop -> a < chunk_count stop step.
Proof.
  intros Hs Hlt. unfold chunk_count.
  apply Nat.div_le_lower_bound; nia.
Qed.

Lemma range_from_seq (fuel : nat) : forall a stop step,
  1 <= step -> stop - a * step <= fuel ->
  range_from fuel (a * step) stop step =
  map (fun k => k * step) (seq a (chunk_count stop step - a)).
Proof.
  induction fuel as [|fuel IH]; intros a stop step Hs Hf; simpl.
  - assert (chunk_count stop step <= a) by (apply chunk_count_le; lia).
    replace (chunk_count stop step - a) with 0 by lia. reflexivity.
  - destruct (Nat.ltb_spec (a * step) stop) as [Hlt|Hge].
    + pose proof (chunk_count_gt a Hs Hlt) as Hc.
      replace (chunk_count stop step - a)
        with (S (chunk_count stop step - S a)) by lia.
      simpl. f_equal.
      replace (a * step + step) with (S a * step) by lia.
      apply IH; [assumption | simpl; lia].
    + assert (chunk_count stop step <= a) by (apply chunk_count_le; lia).
      replace (chunk_count stop step - a) with 0 by lia. reflexivity.
Qed.

Lemma range3_seq (stop step : nat) :
  1 <= step ->
  range3 0 stop step = map (fun k => k * step) (seq 0 (chunk_count stop step)).
Proof.
  intros Hs. unfold range3.
  change 0 with (0 * step) at 2.
  rewrite (@range_from_seq (stop - 0) 0 stop step Hs) by (simpl; lia).
  now rewrite Nat.sub_0_r.
Qed.

Lemma chunk_count_bounds (stop step : nat) :
  1 <= step -> 1 <= stop -> 1 <= chunk_count stop step <= stop.
Proof.
  intros Hs Hn. split.
  - apply (chunk_count_gt 0 Hs). simpl. lia.
  - apply chunk_count_le; nia.
Qed.

Lemma chunk_count_0 (step : nat) : 1 <= step -> chunk_count 0 step = 0.
Proof.
  intros Hs. pose proof (@chunk_count_le 0 step 0 Hs). lia.
Qed.

(** The slices of width [step] taken at the first [n] strides make up the
    first [n * step] elements. *)
Lemma concat_slices {A : Type} (l : list A) (step n : nat) :
  concat (map (fun k => slice l (k * step) (k * step + step)) (seq 0 n))
  = firstn (n * step) l.
Proof.
  induction n as [|n IH].
  - reflexivity.
  - rewrite seq_S, map_app, concat_app, IH. simpl.
    rewrite app_nil_r. unfold slice.
    replace (n * step + step - n * step) with step by lia.
    rewrite <- (firstn_skipn (n * step) (firstn (step + n * step) l)).
    rewrite firstn_firstn, skipn_firstn_comm.
    replace (Nat.min (n * step) (step + n * step)) with (n * step) by lia.
    replace (step + n * step - n * step) with step by lia.
    reflexivity.
Qed.

Lemma concat_all_slices {A : Type} (l : list A) (step : nat) :
  1 <= step ->
  concat (map (fun k => slice l (k * step) (k * step + step))
              (seq 0 (chunk_count (length l) step))) = l.
Proof.
  intros Hs. rewrite concat_slices. apply firstn_all2.
  destruct (Nat.le_gt_cases (length l) (chunk_count (length l) step * step))
    as [H|H]; [assumption|].
  pose proof (chunk_count_gt _ Hs H). lia.
Qed.

Lemma slice_nonempty {A : Type} (l : list A) (step k : nat) :
  1 <= step -> k < chunk_count (length l) step ->
  slice l (k * step) (k * step + step) <> [].
Proof.
  intros Hs Hk Hnil.
  assert (Hlt : k * step < length l).
  { destruct (Nat.le_gt_cases (length l) (k * step)) as [H|H]; [|assumption].
    pose proof (chunk_count_le k Hs H). lia. }
  apply (f_equal (@length A)) in Hnil. unfold slice in Hnil.
  rewrite length_firstn, length_skipn in Hnil. simpl in Hnil. lia.
Qed.

(** ** Chunk names *)

Lemma lit_inj (s t : string) : lit s = lit t -> s = t.
Proof.
  unfold lit. intros H.
  rewrite <- (string_of_list_ascii_of_string s),
          <- (string_of_list_ascii_of_string t).
  f_equal. revert H.
  generalize (list_ascii_of_string s) as l, (list_ascii_of_string t) as m.
  induction l as [|a l IH]; destruct m as [|b m]; simpl; intros H;
    try discriminate; [reflexivity|].
  injection H as Hab Hlm. f_equal; [|now apply IH].
  rewrite <- (ascii_N_embedding a), <- (ascii_N_embedding b). now f_equal.
Qed.

Lemma str_of_nat_inj (m n : nat) : str_of_nat m = str_of_nat n -> m = n.
Proof.
  unfold str_of_nat. intros H. apply lit_inj in H.
  assert (Hu : Nat.to_uint m = Nat.to_uint n).
  { apply (f_equal NilEmpty.uint_of_string) in H.
    rewrite !NilEmpty.usu in H. now injection H. }
  rewrite <- (Unsigned.of_to m), <- (Unsigned.of_to n). now f_equal.
Qed.

Lemma chunk_name_inj (input_file : str) (m n : nat) :
  chunk_name input_file m = chunk_name input_file n -> m = n.
Proof.
  unfold chunk_name. intros H.
  apply app_inv_head, app_inv_head, app_inv_tail in H.
  now apply str_of_nat_inj.
Qed.

Lemma chunk_names_NoDup (input_file : str) (n : nat) :
  NoDup (map (chunk_name input_file) (seq 0 n)).
Proof.
  apply Finite.Injective_map_NoDup; [|apply seq_NoDup].
  intros a b. apply chunk_name_inj.
Qed.

(** ** Reading what was written *)

Lemma fs_read_app (ws fs : filesystem) (path : str) :
  fs_read (ws ++ fs) path =
  match fs_read ws path with
  | Some c => Some c
  | None => fs_read fs path
  end.
Proof.
  induction ws as [|[p c] ws IH]; simpl; [reflexivity|].
  destruct (str_eq_dec p path); [reflexivity | exact IH].
Qed.

Lemma fs_read_None (ws : filesystem) (path : str) :
  ~ In path (map fst ws) -> fs_read ws path = None.
Proof.
  induction ws as [|[p c] ws IH]; simpl; intros H; [reflexivity|].
  destruct (str_eq_dec p path) as [->|_]; [tauto|]. apply IH. tauto.
Qed.

Lemma fs_read_In (ws : filesystem) (path text : str) :
  NoDup (map fst ws) -> In (path, text) ws -> fs_read ws path = Some text.
Proof.
  induction ws as [|[p c] ws IH]; simpl; intros Hnd Hin; [contradiction|].
  inversion Hnd as [|? ? Hnotin Hnd']; subst.
  destruct Hin as [Heq|Hin].
  - injection Heq as -> ->. destruct (str_eq_dec path path); congruence.
  - destruct (str_eq_dec p path) as [->|_]; [|now apply IH].
    exfalso. apply Hnotin. apply (in_map fst) in Hin. exact Hin.
Qed.

(** ** The loop of [split_input_file] in closed form *)

Lemma fold_write_chunk (input_file : str) (lines : list str) (chunk_size : nat)
    (ks : list nat) : forall fs chunks,
  1 <= chunk_size ->
  fold_left (write_chunk input_file lines chunk_size)
            (map (fun k => k * chunk_size) ks) (fs, chunks)
  = (rev (map (chunk_write input_file lines chunk_size) ks) ++ fs,
     chunks ++ map (chunk_name input_file) ks).
Proof.
  induction ks as [|k ks IH]; intros fs chunks Hs; simpl.
  - now rewrite app_nil_r.
  - rewrite Nat.div_mul by lia. unfold fs_write.
    rewrite IH by assumption. rewrite <- !app_assoc. reflexivity.
Qed.

Lemma chunk_size_of_pos (lines : list str) (num_chunks : Z) (chunk_size : nat) :
  chunk_size_of lines num_chunks = Ok chunk_size -> 1 <= chunk_size.
Proof.
  unfold chunk_size_of, floordiv.
  destruct (num_chunks =? 0)%Z; simpl; [discriminate|].
  intros H. injection H as <-. lia.
Qed.

Lemma chunk_size_of_Ok (lines : list str) (num_chunks : Z) :
  num_chunks <> 0%Z ->
  chunk_size_of lines num_chunks =
  Ok (Z.to_nat (Z.max 1 (Z.of_nat (length lines) / num_chunks))).
Proof.
  intros Hn. unfold chunk_size_of, floordiv.
  destruct (Z.eqb_spec num_chunks 0); [contradiction | reflexivity].
Qed.

(** What [split_input_file] returns, for a readable input and a chunk
    size. *)
Lemma split_input_file_eq (fs : filesystem) (input_file text : str)
    (num_chunks : Z) (chunk_size : nat) :
  open_read fs input_file = Ok text ->
  chunk_size_of (stripped_lines text) num_chunks = Ok chunk_size ->
  let lines := stripped_lines text in
  let ks := seq 0 (chunk_count (length lines) chunk_size) in
  split_input_file fs input_file num_chunks
  = Ok (rev (map (chunk_write input_file lines chunk_size) ks) ++ fs,
        map (chunk_name input_file) ks).
Proof.
  intros Hopen Hsize. cbv zeta. unfold split_input_file.
  rewrite Hopen. cbn [bind]. rewrite Hsize. cbn [bind].
  pose proof (chunk_size_of_pos _ _ Hsize) as Hpos.
  rewrite range3_seq by assumption.
  now rewrite fold_write_chunk.
Qed.

(** ** Stripping *)

Lemma lstrip_suffix (s : str) :
  exists pre, s = pre ++ lstrip s /\ forallb isspace pre = true.
Proof.
  induction s as [|c s [pre [Heq Hsp]]]; simpl.
  - now exists [].
  - destruct (isspace c) eqn:Hc.
    + exists (c :: pre). simpl. rewrite Hc, Hsp. split; [now f_equal | reflexivity].
    + now exists [].
Qed.

Lemma lstrip_head (s r : str) (c : char) :
  lstrip s = c :: r -> isspace c = false.
Proof.
  induction s as [|d s IH]; simpl; [discriminate|].
  destruct (isspace d) eqn:Hd; [exact IH|].
  intros H. injection H as <- _. exact Hd.
Qed.

Lemma lstrip_spaces_app (pre s : str) :
  forallb isspace pre = true -> lstrip (pre ++ s) = lstrip s.
Proof.
  induction pre as [|c pre IH]; simpl; [reflexivity|].
  intros H. apply andb_true_iff in H as [Hc Hpre]. rewrite Hc. now apply IH.
Qed.

Lemma lstrip_nonspace_app (s t : str) :
  lstrip s <> [] -> lstrip (s ++ t) = lstrip s ++ t.
Proof.
  induction s as [|c s IH]; simpl; [congruence|].
  destruct (isspace c); [exact IH | reflexivity].
Qed.

Lemma lstrip_idem (s : str) : lstrip (lstrip s) = lstrip s.
Proof.
  destruct (lstrip s) as [|c r] eqn:H; [reflexivity|].
  apply lstrip_head in H. simpl. now rewrite H.
Qed.

Lemma rstrip_snoc (s : str) (c : char) :
  rstrip (s ++ [c]) = if isspace c then rstrip s else s ++ [c].
Proof.
  unfold rstrip. rewrite rev_app_distr. simpl.
  destruct (isspace c); [reflexivity|].
  simpl. now rewrite rev_involutive.
Qed.

Lemma rstrip_prefix (s : str) :
  exists suf, s = rstrip s ++ suf /\ forallb isspace suf = true.
Proof.
  destruct (lstrip_suffix (rev s)) as [pre [Heq Hsp]].
  exists (rev pre). split.
  - unfold rstrip. rewrite <- rev_app_distr, <- Heq. now rewrite rev_involutive.
  - rewrite forallb_forall in *. intros x Hx. apply Hsp. now apply in_rev.
Qed.

Lemma rstrip_last (s r : str) (c : char) :
  rstrip s = r ++ [c] -> isspace c = false.
Proof.
  unfold rstrip. intros H.
  apply (f_equal (@rev char)) in H.
  rewrite rev_involutive, rev_app_distr in H. simpl in H.
  now apply lstrip_head in H.
Qed.

Lemma rstrip_idem (s : str) : rstrip (rstrip s) = rstrip s.
Proof.
  unfold rstrip. now rewrite rev_involutive, lstrip_idem.
Qed.

(** Stripping the right end of a text that starts with a character that
    is not a space keeps that start. *)
Lemma rstrip_keeps_head (c : char) (s : str) :
  isspace c = false -> exists r, rstrip (c :: s) = c :: r.
Proof.
  intros Hc. induction s as [|d s IH] using rev_ind.
  - exists []. change [c] with ([] ++ [c]). now rewrite rstrip_snoc, Hc.
  - change (c :: s ++ [d]) with ((c :: s) ++ [d]). rewrite rstrip_snoc.
    destruct (isspace d); [exact IH | now exists (s ++ [d])].
Qed.

Lemma lstrip_rstrip_lstrip (s : str) :
  lstrip (rstrip (lstrip s)) = rstrip (lstrip s).
Proof.
  destruct (lstrip s) as [|c r] eqn:H; [reflexivity|].
  apply lstrip_head in H.
  destruct (@rstrip_keeps_head c r H) as [r' ->]. simpl. now rewrite H.
Qed.

Lemma strip_idem (s : str) : strip (strip s) = strip s.
Proof.
  unfold strip. now rewrite lstrip_rstrip_lstrip, rstrip_idem.
Qed.

(** A stripped text neither starts nor ends with a space. *)
Lemma strip_ends (s : str) :
  (forall c r, strip s = c :: r -> isspace c = false) /\
  (forall r c, strip s = r ++ [c] -> isspace c = false).
Proof.
  split.
  - intros c r H. unfold strip in H. rewrite <- lstrip_rstrip_lstrip in H.
    now apply lstrip_head in H.
  - intros r c H. unfold strip in H. now apply rstrip_last in H.
Qed.

(** What stripping keeps is a contiguous part of the text, between
    spaces. *)
Lemma strip_middle (s : str) :
  exists pre suf, s = pre ++ strip s ++ suf /\
                  forallb isspace pre = true /\ forallb isspace suf = true.
Proof.
  destruct (lstrip_suffix s) as [pre [Hs Hpre]].
  destruct (rstrip_prefix (lstrip s)) as [suf [Hl Hsuf]].
  exists pre, suf. unfold strip. now rewrite <- Hl.
Qed.

Lemma strip_incl (s : str) (c : char) : In c (strip s) -> In c s.
Proof.
  destruct (strip_middle s) as [pre [suf [Hs _]]].
  intros H. rewrite Hs. apply in_or_app. right. apply in_or_app. now left.
Qed.

(** ** Lines of a text *)

Lemma isspace_LF : isspace LF = true.
Proof. reflexivity. Qed.

Lemma strip_line_end (body : str) : strip (body ++ [LF]) = strip body.
Proof.
  unfold strip. destruct (lstrip body) as [|c r] eqn:H.
  - destruct (lstrip_suffix body) as [pre [Hb Hpre]].
    rewrite H, app_nil_r in Hb. subst pre.
    now rewrite lstrip_spaces_app.
  - rewrite lstrip_nonspace_app by congruence.
    rewrite H, rstrip_snoc, isspace_LF. reflexivity.
Qed.

(** A line holds a newline at its end only, and nothing that is not in the
    text. *)
Lemma iter_lines_shape (s : str) : forall cur line,
  ~ In LF cur -> In line (iter_lines cur s) ->
  (exists body, ~ In LF body /\ (line = body ++ [LF] \/ line = body)) /\
  (forall c, In c line -> In c (rev cur ++ s)).
Proof.
  induction s as [|c s IH]; intros cur line Hcur Hin; simpl in Hin.
  - destruct cur as [|d cur]; [contradiction|].
    destruct Hin as [<-|[]]. split.
    + exists (rev (d :: cur)). split; [|now right].
      intros H. apply in_rev in H. contradiction.
    + intros x Hx. now rewrite app_nil_r.
  - destruct (N.eqb_spec c LF) as [->|Hne].
    + destruct Hin as [<-|Hin].
      * split.
        -- exists (rev cur). split; [|now left].
           intros H. apply in_rev in H. contradiction.
        -- intros x Hx. simpl in Hx.
           apply in_app_or in Hx as [Hx|[<-|[]]]; apply in_or_app;
             [now left | right; now left].
      * destruct (IH [] line (fun H => H) Hin) as [Hshape Hsub].
        split; [exact Hshape|].
        intros x Hx. apply in_or_app. right. right. exact (Hsub x Hx).
    + assert (Hcur' : ~ In LF (c :: cur)).
      { intros [H|H]; [now apply Hne | contradiction]. }
      destruct (IH (c :: cur) line Hcur' Hin) as [Hshape Hsub].
      split; [exact Hshape|].
      intros x Hx. specialize (Hsub x Hx). simpl in Hsub.
      now rewrite <- app_assoc in Hsub.
Qed.

Lemma iter_lines_terminated (x rest : str) : forall cur,
  ~ In LF x ->
  iter_lines cur (x ++ LF :: rest) = (rev cur ++ x ++ [LF]) :: iter_lines [] rest.
Proof.
  induction x as [|c x IH]; intros cur Hx; simpl.
  - reflexivity.
  - destruct (N.eqb_spec c LF) as [->|Hne]; [exfalso; apply Hx; now left|].
    rewrite IH by (intros H; apply Hx; now right).
    simpl. now rewrite <- app_assoc.
Qed.

Lemma iter_lines_last (x : str) : forall cur,
  ~ In LF x -> rev cur ++ x <> [] ->
  iter_lines cur x = [rev cur ++ x].
Proof.
  induction x as [|c x IH]; intros cur Hx Hne; simpl.
  - rewrite app_nil_r in *. destruct cur; [now contradiction Hne | reflexivity].
  - destruct (N.eqb_spec c LF) as [->|Hc]; [exfalso; apply Hx; now left|].
    rewrite IH.
    + simpl. now rewrite <- app_assoc.
    + intros H. apply Hx. now right.
    + simpl. rewrite <- app_assoc. simpl. now destruct (rev cur).
Qed.

(** ** Universal newlines *)

Lemma universal_newlines_no_CR_len (n : nat) : forall s,
  length s <= n -> ~ In CR (universal_newlines s).
Proof.
  induction n as [|n IH]; intros s Hlen.
  - destruct s; [intros [] | simpl in Hlen; lia].
  - destruct s as [|c s]; [intros []|]. simpl in Hlen. simpl.
    destruct (N.eqb_spec c CR) as [->|Hc].
    + destruct s as [|d s].
      * intros [H|[]]. discriminate H.
      * simpl in Hlen. destruct (N.eqb_spec d LF) as [->|Hd].
        -- intros [H|H]; [discriminate H|]. revert H. apply IH. lia.
        -- intros [H|H]; [discriminate H|]. revert H. apply IH. simpl. lia.
    + intros [H|H]; [now apply Hc|]. revert H. apply IH. lia.
Qed.

Lemma universal_newlines_no_CR (s : str) : ~ In CR (universal_newlines s).
Proof. apply (@universal_newlines_no_CR_len (length s)). lia. Qed.

Lemma universal_newlines_id (s : str) :
  ~ In CR s -> universal_newlines s = s.
Proof.
  induction s as [|c s IH]; intros H; simpl; [reflexivity|].
  destruct (N.eqb_spec c CR) as [->|Hc]; [exfalso; apply H; now left|].
  f_equal. apply IH. intros Hin. apply H. now right.
Qed.

(** ** The items of a workload *)

Lemma stripped_lines_source (text item : str) :
  In item (stripped_lines text) ->
  exists line, In line (iter_lines [] text) /\ item = strip line /\ item <> [].
Proof.
  unfold stripped_lines. intros H.
  apply in_map_iff in H as [line [<- Hline]].
  apply filter_In in Hline as [Hin Htruthy].
  exists line. repeat split; [assumption|].
  intros Hnil. rewrite Hnil in Htruthy. discriminate.
Qed.

Lemma stripped_lines_clean (text : str) :
  ~ In CR text -> Forall clean (stripped_lines text).
Proof.
  intros HCR. apply Forall_forall. intros item Hitem.
  destruct (stripped_lines_source _ _ Hitem) as [line [Hline [-> Hne]]].
  destruct (@iter_lines_shape text [] line (fun H => H) Hline)
    as [[body [Hbody Hshape]] Hsub].
  repeat split.
  - exact Hne.
  - destruct Hshape as [->| ->].
    + rewrite strip_line_end. intros H. now apply strip_incl in H.
    + intros H. now apply strip_incl in H.
  - intros H. apply strip_incl, Hsub in H. contradiction.
  - apply strip_idem.
Qed.

Lemma join_no_CR (l : list str) :
  Forall clean l -> ~ In CR (join [LF] l).
Proof.
  induction l as [|x [|y rest] IH]; intros H; simpl.
  - intros [].
  - inversion H as [|? ? [_ [_ [Hx _]]] _]; subst. exact Hx.
  - inversion H as [|? ? [_ [_ [Hx _]]] Hrest]; subst.
    intros Hin. apply in_app_or in Hin as [Hin|[Hin|Hin]].
    + contradiction.
    + discriminate Hin.
    + now apply IH in Hin.
Qed.

(** Reading back what [join] wrote. *)
Lemma stripped_lines_join (l : list str) :
  Forall clean l -> stripped_lines (join [LF] l) = l.
Proof.
  unfold stripped_lines.
  induction l as [|x [|y rest] IH]; intros H.
  - reflexivity.
  - inversion H as [|? ? [Hne [HLF [_ Hstrip]]] _]; subst. simpl join.
    rewrite iter_lines_last by (simpl; assumption). simpl.
    rewrite Hstrip. destruct x as [|c x]; [contradiction|].
    simpl truthy. cbv iota. simpl map. now rewrite Hstrip.
  - inversion H as [|? ? [Hne [HLF [_ Hstrip]]] Hrest]; subst.
    change (join [LF] (x :: y :: rest)) with (x ++ LF :: join [LF] (y :: rest)).
    rewrite iter_lines_terminated by assumption. simpl rev. simpl app at 1.
    simpl filter. rewrite strip_line_end, Hstrip.
    destruct x as [|c x]; [contradiction|]. simpl truthy. cbv iota.
    rewrite map_cons, strip_line_end, Hstrip. f_equal. now apply IH.
Qed.

(** ** The partitions of a workload *)

Lemma In_slice {A : Type} (l : list A) (i j : nat) (x : A) :
  In x (slice l i j) -> In x l.
Proof.
  unfold slice. intros H.
  rewrite <- (firstn_skipn i l). apply in_or_app. right.
  rewrite <- (firstn_skipn (j - i) (skipn i l)). apply in_or_app. now left.
Qed.

Lemma Forall2_map_both {A B C : Type} (R : B -> C -> Prop) (f : A -> B)
    (g : A -> C) (l : list A) :
  (forall a, In a l -> R (f a) (g a)) -> Forall2 R (map f l) (map g l).
Proof.
  induction l as [|a l IH]; intros H; simpl; constructor.
  - apply H. now left.
  - apply IH. intros b Hb. apply H. now right.
Qed.

Lemma chunk_stored (fs : filesystem) (input_file : str) (lines : list str)
    (chunk_size n k : nat) :
  k < n ->
  fs_read (rev (map (chunk_write input_file lines chunk_size) (seq 0 n)) ++ fs)
          (chunk_name input_file k)
  = Some (join [LF] (chunk_lines_at lines chunk_size k)).
Proof.
  intros Hk. rewrite fs_read_app.
  rewrite (@fs_read_In _ (chunk_name input_file k)
             (join [LF] (chunk_lines_at lines chunk_size k))).
  - reflexivity.
  - rewrite map_rev, map_map. simpl. apply NoDup_rev, chunk_names_NoDup.
  - apply in_rev. rewrite rev_involutive.
    apply (in_map (chunk_write input_file lines chunk_size)).
    apply in_seq. lia.
Qed.

Lemma chunk_clean (lines : list str) (chunk_size k : nat) :
  Forall clean lines -> Forall clean (chunk_lines_at lines chunk_size k).
Proof.
  rewrite !Forall_forall. intros H x Hx. apply H.
  unfold chunk_lines_at in Hx. now apply In_slice in Hx.
Qed.

(** What [split_input_file] does on a readable input: the number of
    chunks, what each chunk file holds, and that the chunks make up the
    lines. *)
Lemma split_input_file_partition (fs : filesystem) (input_file raw : str)
    (num_chunks : Z) :
  fs_read fs input_file = Some raw ->
  num_chunks <> 0%Z ->
  let lines := stripped_lines (universal_newlines raw) in
  let chunk_size := Z.to_nat (Z.max 1 (Z.of_nat (length lines) / num_chunks)) in
  exists fs' chunks parts,
    split_input_file fs input_file num_chunks = Ok (fs', chunks) /\
    length chunks = chunk_count (length lines) chunk_size /\
    Forall2 (fun chunk part =>
               fs_read fs' chunk = Some (join [LF] part) /\
               read_prompts fs' chunk = Ok part /\
               part <> [] /\
               (forall item, In item part -> In item lines))
            chunks parts /\
    concat parts = lines.
Proof.
  intros Hread Hn lines chunk_size.
  assert (Hopen : open_read fs input_file = Ok (universal_newlines raw)).
  { unfold open_read. now rewrite Hread. }
  assert (Hsize : chunk_size_of lines num_chunks = Ok chunk_size)
    by now apply chunk_size_of_Ok.
  pose proof (chunk_size_of_pos _ _ Hsize) as Hpos.
  assert (Hclean : Forall clean lines).
  { apply stripped_lines_clean, universal_newlines_no_CR. }
  set (n := chunk_count (length lines) chunk_size).
  exists (rev (map (chunk_write input_file lines chunk_size) (seq 0 n)) ++ fs),
         (map (chunk_name input_file) (seq 0 n)),
         (map (chunk_lines_at lines chunk_size) (seq 0 n)).
  split; [now apply split_input_file_eq|].
  split; [now rewrite length_map, length_seq|].
  split.
  - apply Forall2_map_both. intros k Hk. apply in_seq in Hk.
    assert (Hstored := @chunk_stored fs input_file lines chunk_size n k
                         ltac:(lia)).
    pose proof (chunk_clean chunk_size k Hclean) as Hpart.
    repeat split.
    + exact Hstored.
    + unfold read_prompts, open_read. rewrite Hstored. simpl.
      rewrite universal_newlines_id by now apply join_no_CR.
      now rewrite stripped_lines_join.
    + apply slice_nonempty; [assumption | fold n; lia].
    + intros item Hitem. now apply In_slice in Hitem.
  - apply concat_all_slices. assumption.
Qed.

(** ** C1: the number of chunks *)

(** The count that does hold: a workload that is not empty gives at least
    one chunk and at most one chunk per line. *)
Lemma split_input_file_count (fs : filesystem) (input_file raw : str)
    (num_chunks : Z) :
  fs_read fs input_file = Some raw ->
  stripped_lines (universal_newlines raw) <> [] ->
  num_chunks <> 0%Z ->
  exists fs' chunks,
    split_input_file fs input_file num_chunks = Ok (fs', chunks) /\
    1 <= length chunks <= length (stripped_lines (universal_newlines raw)).
Proof.
  intros Hread Hne Hn.
  destruct (split_input_file_partition fs input_file Hread Hn)
    as [fs' [chunks [parts [Hsplit [Hlen _]]]]].
  exists fs', chunks. split; [exact Hsplit|]. rewrite Hlen.
  apply chunk_count_bounds; [lia|].
  destruct (stripped_lines (universal_newlines raw)); [contradiction|simpl; lia].
Qed.

(** C1, at a failing input: five prompts split for three processes give
    five chunks of one prompt each, two more than the [num_chunks]
    asked for; split for two processes they give three chunks. *)
Lemma split_input_file_exceeds_num_chunks :
  (exists fs' chunks,
     split_input_file five_prompts (lit "prompts.txt") 3 = Ok (fs', chunks) /\
     length chunks = 5 /\
     map (fs_read fs') chunks =
       [Some (lit "a"); Some (lit "b"); Some (lit "c"); Some (lit "d");
        Some (lit "e")]) /\
  (exists fs' chunks,
     split_input_file five_prompts (lit "prompts.txt") 2 = Ok (fs', chunks) /\
     length chunks = 3 /\
     map (fs_read fs') chunks =
       [Some (join [LF] [lit "a"; lit "b"]);
        Some (join [LF] [lit "c"; lit "d"]); Some (lit "e")]).
Proof.
  split; eexists; eexists; (split; [vm_compute; reflexivity|]);
    split; vm_compute; reflexivity.
Qed.

(** ** C2: the chunks make up the workload *)

(** C2: for a workload that is not empty and [num_chunks >= 1], the chunk
    files, read in the order returned, hold the lines of the input, each
    once and in order: every file stores its lines joined by newlines,
    reads back as those lines, and the lines of all files, one file after
    the other, are the lines of the input. *)
Theorem split_input_file_roundtrip (fs : filesystem) (input_file raw : str)
    (num_chunks : Z) :
  fs_read fs input_file = Some raw ->
  stripped_lines (universal_newlines raw) <> [] ->
  (1 <= num_chunks)%Z ->
  exists fs' chunks parts,
    split_input_file fs input_file num_chunks = Ok (fs', chunks) /\
    Forall2 (fun chunk part =>
               fs_read fs' chunk = Some (join [LF] part) /\
               read_prompts fs' chunk = Ok part)
            chunks parts /\
    concat parts = stripped_lines (universal_newlines raw).
Proof.
  intros Hread _ Hn.
  destruct (@split_input_file_partition fs input_file raw num_chunks Hread
              ltac:(lia))
    as [fs' [chunks [parts [Hsplit [_ [Hparts Hconcat]]]]]].
  exists fs', chunks, parts. repeat split; try assumption.
  eapply Forall2_impl; [|exact Hparts]. simpl. tauto.
Qed.

Lemma split_input_file_roundtrip_witness :
  exists fs' chunks parts,
    split_input_file five_prompts (lit "prompts.txt") 2 = Ok (fs', chunks) /\
    Forall2 (fun chunk part =>
               fs_read fs' chunk = Some (join [LF] part) /\
               read_prompts fs' chunk = Ok part)
            chunks parts /\
    concat parts = [lit "a"; lit "b"; lit "c"; lit "d"; lit "e"].
Proof.
  apply (@split_input_file_roundtrip five_prompts (lit "prompts.txt")
           (join [LF] [lit "a"; lit "b"; lit "c"; lit "d"; lit "e"]) 2).
  - reflexivity.
  - vm_compute. discriminate.
  - lia.
Defined.

(** ** C7: an empty workload *)

(** C7, as stated, fails: on a workload with no item, with
    [num_chunks = 3], [split_input_file] returns the empty list of chunks
    and raises nothing. *)
Lemma split_input_file_empty_returns :
  split_input_file blank_prompts (lit "prompts.txt") 3 = Ok (blank_prompts, []) /\
  split_input_file [(lit "prompts.txt", [])] (lit "prompts.txt") 1
  = Ok ([(lit "prompts.txt", [])], []).
Proof. split; reflexivity. Qed.

(** C7, amended: for every [num_chunks >= 1], splitting a workload with
    no item returns the empty list of chunks, writes no file and raises
    no error. *)
Theorem split_input_file_empty (fs : filesystem) (input_file raw : str)
    (num_chunks : Z) :
  fs_read fs input_file = Some raw ->
  stripped_lines (universal_newlines raw) = [] ->
  (1 <= num_chunks)%Z ->
  split_input_file fs input_file num_chunks = Ok (fs, []).
Proof.
  intros Hread Hempty Hn.
  assert (Hopen : open_read fs input_file = Ok (universal_newlines raw)).
  { unfold open_read. now rewrite Hread. }
  assert (Hsize : chunk_size_of (stripped_lines (universal_newlines raw))
                    num_chunks = Ok 1).
  { rewrite chunk_size_of_Ok by lia. rewrite Hempty. reflexivity. }
  rewrite (split_input_file_eq _ _ _ Hopen Hsize).
  rewrite Hempty. reflexivity.
Qed.

Lemma split_input_file_empty_witness :
  split_input_file blank_prompts (lit "prompts.txt") 4 = Ok (blank_prompts, []).
Proof.
  apply (@split_input_file_empty blank_prompts (lit "prompts.txt")
           [LF; 32; LF; 9; 32; LF]%N 4).
  - reflexivity.
  - reflexivity.
  - lia.
Defined.

(** ** C10: what a chunk file holds *)

(** C10: whatever the input holds, every chunk file stores its items
    joined by single newlines, and every item is a line of the input,
    stripped, not empty, with no newline inside and no space at either
    end; the items of all chunks are the stripped non-blank lines of the
    input. The text of the input itself is not kept: an input with a
    blank line and spaces around its prompts, split into one chunk, gives
    a chunk file with another text. *)
Theorem split_input_file_normalizes :
  (forall (fs : filesystem) (input_file raw : str) (num_chunks : Z),
     fs_read fs input_file = Some raw ->
     num_chunks <> 0%Z ->
     exists fs' chunks parts,
       split_input_file fs input_file num_chunks = Ok (fs', chunks) /\
       Forall2 (fun chunk part =>
                  fs_read fs' chunk = Some (join [LF] part) /\
                  Forall (fun item =>
                            item <> [] /\ ~ In LF item /\ strip item = item /\
                            exists line,
                              In line (iter_lines [] (universal_newlines raw)) /\
                              item = strip line)
                         part)
               chunks parts /\
       concat parts =
         map strip (filter (fun line => truthy (strip line))
                           (iter_lines [] (universal_newlines raw)))) /\
  (exists fs' chunk,
     split_input_file [(lit "p", spaced_prompts)] (lit "p") 1
       = Ok (fs', [chunk]) /\
     fs_read fs' chunk = Some (lit "a" ++ [LF] ++ lit "b") /\
     lit "a" ++ [LF] ++ lit "b" <> spaced_prompts).
Proof.
  split.
  - intros fs input_file raw num_chunks Hread Hn.
    destruct (split_input_file_partition fs input_file Hread Hn)
      as [fs' [chunks [parts [Hsplit [_ [Hparts Hconcat]]]]]].
    exists fs', chunks, parts. repeat split; try assumption.
    eapply Forall2_impl; [|exact Hparts]. simpl.
    intros chunk part [Hstored [_ [_ Hsub]]]. split; [exact Hstored|].
    apply Forall_forall. intros item Hitem. specialize (Hsub item Hitem).
    pose proof (@stripped_lines_clean _ (universal_newlines_no_CR raw)) as Hclean.
    rewrite Forall_forall in Hclean.
    destruct (Hclean item Hsub) as [Hne [HLF [_ Hstrip]]].
    destruct (stripped_lines_source _ _ Hsub) as [line [Hline [Heq _]]].
    repeat split; try assumption. now exists line.
  - eexists. eexists. split; [vm_compute; reflexivity|].
    split; [vm_compute; reflexivity | vm_compute; discriminate].
Qed.

Lemma split_input_file_normalizes_witness :
  exists fs' chunks parts,
    split_input_file [(lit "p", spaced_prompts)] (lit "p") 2 = Ok (fs', chunks) /\
    Forall2 (fun chunk part =>
               fs_read fs' chunk = Some (join [LF] part) /\
               Forall (fun item =>
                         item <> [] /\ ~ In LF item /\ strip item = item /\
                         exists line,
                           In line (iter_lines []
                                      (universal_newlines spaced_prompts)) /\
                           item = strip line)
                      part)
            chunks parts /\
    concat parts = [lit "a"; lit "b"].
Proof.
  apply (proj1 split_input_file_normalizes
           [(lit "p", spaced_prompts)] (lit "p") spaced_prompts 2%Z).
  - reflexivity.
  - discriminate.
Defined.

(** ** C9: chunks over devices *)

Lemma index_mod (gpu_ids : list Z) (i : nat) :
  gpu_ids <> [] ->
  (k <- pymod (Z.of_nat i) (Z.of_nat (length gpu_ids)) ;; index gpu_ids k)
  = Ok (nth (i mod length gpu_ids) gpu_ids 0%Z).
Proof.
  intros Hne.
  assert (Hlen : length gpu_ids <> 0) by (destruct gpu_ids; simpl; congruence).
  unfold pymod. destruct (Z.eqb_spec (Z.of_nat (length gpu_ids)) 0) as [H|_];
    [lia|].
  simpl. unfold index. rewrite <- Nat2Z.inj_mod, Nat2Z.id.
  rewrite (nth_error_nth' gpu_ids 0%Z); [reflexivity|].
  now apply Nat.mod_upper_bound.
Qed.

Lemma chunk_jobs_eq (config : str) (gpu_ids : list Z) (chunk_files : list str) :
  gpu_ids <> [] -> forall i,
  chunk_jobs config gpu_ids i chunk_files
  = Ok (map (fun kf => chunk_job config gpu_ids (fst kf) (snd kf))
            (combine (seq i (length chunk_files)) chunk_files)).
Proof.
  intros Hne. induction chunk_files as [|f rest IH]; intros i; simpl.
  - reflexivity.
  - pose proof (index_mod i Hne) as Hidx. unfold bind in Hidx |- *.
    destruct (pymod (Z.of_nat i) (Z.of_nat (length gpu_ids))) as [k|e];
      [|discriminate].
    rewrite Hidx, IH. reflexivity.
Qed.

(** C9: with a device list that is not empty, the chunks, in order, get
    one job each, and the job of the chunk at position [i] runs on
    [gpu_ids[i % len(gpu_ids)]]; the result is a function of the
    arguments. *)
Theorem chunk_jobs_round_robin (config : str) (gpu_ids : list Z)
    (chunk_files : list str) :
  gpu_ids <> [] ->
  exists jobs,
    chunk_jobs config gpu_ids 0 chunk_files = Ok jobs /\
    map job_input_file jobs = chunk_files /\
    map job_gpu_id jobs =
      map (fun i => nth (i mod length gpu_ids) gpu_ids 0%Z)
          (seq 0 (length chunk_files)) /\
    map job_output_suffix jobs =
      map (fun i => lit "chunk_" ++ str_of_nat i) (seq 0 (length chunk_files)).
Proof.
  intros Hne. eexists. split; [now apply chunk_jobs_eq|].
  rewrite !map_map. simpl.
  generalize 0 as i. induction chunk_files as [|f rest IH]; intros i; simpl.
  - repeat split.
  - destruct (IH (S i)) as [H1 [H2 H3]]. repeat split; now f_equal.
Qed.

(** Five chunks over the devices 0, 1 and 2 go to 0, 1, 2, 0, 1. *)
Lemma chunk_jobs_round_robin_witness :
  (exists jobs,
     chunk_jobs (lit "c.yaml") [0; 1; 2]%Z 0
                (map (chunk_name (lit "p")) (seq 0 5)) = Ok jobs /\
     map job_input_file jobs = map (chunk_name (lit "p")) (seq 0 5) /\
     map job_gpu_id jobs =
       map (fun i => nth (i mod 3) [0; 1; 2]%Z 0%Z)
           (seq 0 (length (map (chunk_name (lit "p")) (seq 0 5)))) /\
     map job_output_suffix jobs =
       map (fun i => lit "chunk_" ++ str_of_nat i)
           (seq 0 (length (map (chunk_name (lit "p")) (seq 0 5))))) /\
  map (fun i => nth (i mod 3) [0; 1; 2]%Z 0%Z) (seq 0 5) = [0; 1; 2; 0; 1]%Z.
Proof.
  split.
  - apply (@chunk_jobs_round_robin (lit "c.yaml") [0; 1; 2]%Z
             (map (chunk_name (lit "p")) (seq 0 5))).
    discriminate.
  - reflexivity.
Defined.

(** ** C8: plans and budgets that make no sense *)

Lemma broadcast_jobs_length (config input_file : str) (gpu_ids : list Z)
    (per_gpu_jobs : Z) :
  length (broadcast_jobs config input_file gpu_ids per_gpu_jobs)
  = length gpu_ids * Z.to_nat per_gpu_jobs.
Proof.
  unfold broadcast_jobs, range1.
  induction gpu_ids as [|g gpu_ids IH]; [reflexivity|].
  cbn [flat_map length]. rewrite length_app, length_map, length_seq, IH.
  lia.
Qed.

Lemma empty_budget (gpu_ids : list Z) (per_gpu_jobs : Z) :
  gpu_ids = [] \/ (per_gpu_jobs < 1)%Z ->
  (Z.of_nat (length gpu_ids) * per_gpu_jobs <= 0)%Z.
Proof. intros [->|H]; simpl; nia. Qed.

(** C8, as stated, fails: with [--per_gpu_jobs 0] the plan is built,
    empty, and nothing is raised while it is built. *)
Lemma prepare_jobs_builds_empty_plan :
  prepare_jobs five_prompts (lit "c.yaml") (lit "prompts.txt") [0; 1]%Z 0 false
    = Ok (mk_plan five_prompts [] []).
Proof. reflexivity. Qed.

Lemma split_input_file_raises (fs : filesystem) (input_file : str)
    (num_chunks : Z) (e : exception) :
  split_input_file fs input_file num_chunks = Raise e ->
  e = FileNotFoundError \/ e = ZeroDivisionError.
Proof.
  unfold split_input_file, open_read, chunk_size_of, floordiv.
  destruct (fs_read fs input_file); simpl.
  - destruct (num_chunks =? 0)%Z; simpl; intros H; [|discriminate].
    injection H as <-. now right.
  - intros H. injection H as <-. now left.
Qed.

Lemma split_input_file_zero (fs : filesystem) (input_file : str) :
  exists e, split_input_file fs input_file 0 = Raise e.
Proof.
  unfold split_input_file, open_read, chunk_size_of, floordiv.
  destruct (fs_read fs input_file); simpl; eauto.
Qed.

Lemma broadcast_jobs_nil (config input_file : str) (gpu_ids : list Z)
    (per_gpu_jobs : Z) :
  gpu_ids = [] \/ (per_gpu_jobs < 1)%Z ->
  broadcast_jobs config input_file gpu_ids per_gpu_jobs = [].
Proof.
  intros H. apply length_zero_iff_nil. rewrite broadcast_jobs_length.
  destruct H as [->|H]; simpl; [reflexivity|].
  replace (Z.to_nat per_gpu_jobs) with 0 by lia. lia.
Qed.

Lemma pool_executor_rejects (max_workers : Z) :
  (max_workers <= 0)%Z -> pool_executor max_workers = Raise ValueError.
Proof.
  intros H. unfold pool_executor.
  destruct (Z.leb_spec max_workers 0); [reflexivity | lia].
Qed.

Lemma pool_executor_accepts (max_workers : Z) :
  (1 <= max_workers)%Z -> pool_executor max_workers = Ok tt.
Proof.
  intros H. unfold pool_executor.
  destruct (Z.leb_spec max_workers 0); [lia | reflexivity].
Qed.

(** A run of [main] with a budget of no worker ends before any job is
    launched. *)
Lemma main_empty_budget (w : world) (fs : filesystem)
    (config input_file : str) (gpu_ids : list Z) (per_gpu_jobs : Z)
    (split_input : bool) :
  gpu_ids = [] \/ (per_gpu_jobs < 1)%Z ->
  let r := main w fs config input_file gpu_ids per_gpu_jobs split_input in
  launched r = [] /\
  (exists e, outcome_of_run r = Crashed e) /\
  (split_input = false ->
   outcome_of_run r = Crashed ValueError /\
   prepare_jobs fs config input_file gpu_ids per_gpu_jobs false
   = Ok (mk_plan fs [] [])).
Proof.
  intros Hbad. pose proof (empty_budget Hbad) as Htotal.
  pose proof (pool_executor_rejects Htotal) as Hpool.
  cbv zeta. unfold main. destruct split_input.
  - unfold prepare_jobs.
    destruct (split_input_file fs input_file
                (Z.of_nat (length gpu_ids) * per_gpu_jobs)) as [fc|e] eqn:Hs.
    + assert (Hne : gpu_ids <> []).
      { intros ->. simpl in Hs.
        destruct (split_input_file_zero fs input_file) as [e He].
        congruence. }
      cbn [bind]. rewrite (chunk_jobs_eq config (snd fc) Hne 0).
      cbn [bind]. rewrite Hpool. cbn.
      split; [reflexivity|]. split; [eauto | discriminate].
    + cbn. split; [reflexivity|]. split; [eauto | discriminate].
  - unfold prepare_jobs. rewrite Hpool. cbn.
    split; [reflexivity|]. split; [eauto|]. intros _.
    split; [reflexivity|]. now rewrite broadcast_jobs_nil.
Qed.

Section PlanChecks.

Variable py_int : str -> result Z.

(** [int('')] raises [ValueError]. *)
Hypothesis int_of_empty : py_int [] = Raise ValueError.

Lemma split_on_pieces (sep : char) (s : str) : forall cur,
  split_on sep cur s <> [].
Proof.
  induction s as [|c s IH]; intros cur; simpl; [discriminate|].
  destruct (c =? sep)%N; [discriminate | apply IH].
Qed.

Lemma comprehension_length {A B : Type} (f : A -> result B) (l : list A)
    (bs : list B) :
  comprehension f l = Ok bs -> length bs = length l.
Proof.
  revert bs. induction l as [|a l IH]; intros bs; simpl.
  - intros H. now injection H as <-.
  - destruct (f a) as [b|e]; [|discriminate]. cbn [bind].
    destruct (comprehension f l) as [bs'|e]; [|discriminate]. cbn [bind].
    intros H. injection H as <-. simpl. f_equal. now apply IH.
Qed.

Lemma parse_gpus_nonempty (gpus : str) (gpu_ids : list Z) :
  parse_gpus py_int gpus = Ok gpu_ids -> gpu_ids <> [].
Proof.
  unfold parse_gpus. intros H Hnil. subst gpu_ids.
  apply comprehension_length in H. simpl in H.
  pose proof (@split_on_pieces COMMA gpus []) as Hne.
  destruct (split_on COMMA [] gpus); [contradiction | discriminate].
Qed.

(** C8, amended: nothing checks the device list or [per_gpu_jobs] while
    the plan is built, and no error of that name exists; [main] still
    ends before any job is launched whenever the device list would be
    empty or [per_gpu_jobs < 1]. A device list is never empty once read:
    whatever [--gpus] holds, reading it gives one device at least or
    raises, and [--gpus ''] raises [ValueError]; an exception of the
    reading ends [main] before anything is launched. With a device list
    read and [per_gpu_jobs < 1], [main] ends with an exception before any
    job is launched; without [--split_input] the plan got built before
    that, empty and without error, and the exception is the [ValueError]
    of a process pool of no worker. With a device list read and
    [per_gpu_jobs >= 1], the pool is created, and without
    [--split_input] the plan is built, of
    [len(gpu_ids) * per_gpu_jobs] jobs. *)
Theorem main_cli_fails_before_launch (w : world) (fs : filesystem)
    (config input_file gpus : str) (per_gpu_jobs : Z) (split_input : bool) :
  let r := main_cli py_int w fs config input_file gpus per_gpu_jobs
                    split_input in
  (forall gpu_ids, parse_gpus py_int gpus = Ok gpu_ids -> gpu_ids <> []) /\
  (gpus = [] -> parse_gpus py_int gpus = Raise ValueError) /\
  (forall e, parse_gpus py_int gpus = Raise e ->
             launched r = [] /\ outcome_of_run r = Crashed e) /\
  (forall gpu_ids,
     parse_gpus py_int gpus = Ok gpu_ids -> (per_gpu_jobs < 1)%Z ->
     launched r = [] /\
     (exists e, outcome_of_run r = Crashed e) /\
     (split_input = false ->
      outcome_of_run r = Crashed ValueError /\
      prepare_jobs fs config input_file gpu_ids per_gpu_jobs false
      = Ok (mk_plan fs [] []))) /\
  (forall gpu_ids,
     parse_gpus py_int gpus = Ok gpu_ids -> (1 <= per_gpu_jobs)%Z ->
     pool_executor (Z.of_nat (length gpu_ids) * per_gpu_jobs) = Ok tt /\
     (split_input = false ->
      exists jobs,
        prepare_jobs fs config input_file gpu_ids per_gpu_jobs false
        = Ok (mk_plan fs [] jobs) /\
        Z.of_nat (length jobs)
        = (Z.of_nat (length gpu_ids) * per_gpu_jobs)%Z)).
Proof.
  cbv zeta. split; [|split; [|split; [|split]]].
  - intros gpu_ids. apply parse_gpus_nonempty.
  - intros ->.
    change (parse_gpus py_int [])
      with (b <- py_int [] ;; bs <- Ok [] ;; Ok (b :: bs)).
    now rewrite int_of_empty.
  - intros e He. unfold main_cli. rewrite He. now split.
  - intros gpu_ids Hparse Hper. unfold main_cli. rewrite Hparse.
    apply main_empty_budget. now right.
  - intros gpu_ids Hparse Hper.
    pose proof (parse_gpus_nonempty _ Hparse) as Hne. split.
    + apply pool_executor_accepts.
      destruct gpu_ids; [contradiction | simpl length; nia].
    + intros _. eexists. split; [reflexivity|].
      rewrite broadcast_jobs_length. lia.
Qed.

End PlanChecks.

Lemma main_cli_fails_before_launch_witness :
  (forall e,
     parse_gpus int_of_digits [] = Raise e ->
     launched (main_cli int_of_digits quiet_world five_prompts (lit "c.yaml")
                 (lit "prompts.txt") [] 1 false) = [] /\
     outcome_of_run (main_cli int_of_digits quiet_world five_prompts
                       (lit "c.yaml") (lit "prompts.txt") [] 1 false)
     = Crashed e) /\
  (launched (main_cli int_of_digits quiet_world five_prompts (lit "c.yaml")
               (lit "prompts.txt") (lit "0, 1") 0 false) = [] /\
   (exists e,
      outcome_of_run (main_cli int_of_digits quiet_world five_prompts
                        (lit "c.yaml") (lit "prompts.txt") (lit "0, 1") 0
                        false) = Crashed e) /\
   (false = false ->
    outcome_of_run (main_cli int_of_digits quiet_world five_prompts
                      (lit "c.yaml") (lit "prompts.txt") (lit "0, 1") 0 false)
    = Crashed ValueError /\
    prepare_jobs five_prompts (lit "c.yaml") (lit "prompts.txt") [0; 1]%Z 0
                 false
    = Ok (mk_plan five_prompts [] []))) /\
  (pool_executor (Z.of_nat (length [0; 1]%Z) * 2) = Ok tt /\
   (false = false ->
    exists jobs,
      prepare_jobs five_prompts (lit "c.yaml") (lit "prompts.txt") [0; 1]%Z 2
                   false
      = Ok (mk_plan five_prompts [] jobs) /\
      Z.of_nat (length jobs) = (Z.of_nat (length [0; 1]%Z) * 2)%Z)).
Proof.
  split; [|split].
  - exact (proj1 (proj2 (proj2
             (@main_cli_fails_before_launch int_of_digits eq_refl quiet_world
                five_prompts (lit "c.yaml") (lit "prompts.txt") [] 1%Z
                false)))).
  - exact (proj1 (proj2 (proj2 (proj2
             (@main_cli_fails_before_launch int_of_digits eq_refl quiet_world
                five_prompts (lit "c.yaml") (lit "prompts.txt") (lit "0, 1")
                0%Z false)))) [0; 1]%Z eq_refl eq_refl).
  - exact (proj2 (proj2 (proj2 (proj2
             (@main_cli_fails_before_launch int_of_digits eq_refl quiet_world
                five_prompts (lit "c.yaml") (lit "prompts.txt") (lit "0, 1")
                2%Z false)))) [0; 1]%Z eq_refl ltac:(lia)).
Defined.

(** ** C5: what an outcome carries *)

(** The outcome of a job whose process exits with an output that is
    text: a success without any text of the process for the exit code 0,
    a failure with the standard error for another code. *)
Lemma run_inference_job_exit (job_config : job) (returncode : Z)
    (stdout stderr : str) (duration : float) :
  run_inference_job job_config (Exits returncode stdout stderr duration)
  = Returned (exit_outcome job_config returncode stderr duration) /\
  r_success (exit_outcome job_config returncode stderr duration)
  = (returncode =? 0)%Z /\
  r_error (exit_outcome job_config returncode stderr duration)
  = (if (returncode =? 0)%Z then None else Some stderr).
Proof.
  unfold run_inference_job, exit_outcome. simpl.
  destruct (returncode =? 0)%Z; repeat split.
Qed.

(** C5, at a failing input: a job whose process exits with code 0 after
    printing ["frames: 120"] returns the device, [success = True], the
    time and the input file, and nothing of the captured standard output:
    whatever the process prints, the outcome is the same.
    [run_benchmark] of the speed benchmark, on the same process, returns
    the output under ['stdout']. The other half of the claim holds: a
    process that exits with another code gives [success = False] and the
    captured standard error under ['error']. *)
Lemma run_inference_job_omits_stdout :
  run_inference_job job0 (Exits 0 (lit "frames: 120") [] 2%float)
    = Returned (mk_outcome 0 true 2%float (lit "prompts.txt") None) /\
  (forall job_config stdout stdout' stderr duration,
     run_inference_job job_config (Exits 0 stdout stderr duration)
     = run_inference_job job_config (Exits 0 stdout' stderr duration)) /\
  run_benchmark (fun _ => Ok tt) (lit "c.yaml") (lit "prompts.txt")
                (lit "baseline") (Exits 0 (lit "frames: 120") [] 2%float)
    = Returned (mk_benchmark (lit "c.yaml") (lit "baseline") true 2%float
                  (Some tt) (Some (lit "frames: 120")) None) /\
  (forall job_config returncode stdout stderr duration,
     returncode <> 0%Z ->
     run_inference_job job_config (Exits returncode stdout stderr duration)
     = Returned (mk_outcome (job_gpu_id job_config) false duration
                   (job_input_file job_config) (Some stderr))).
Proof.
  split; [reflexivity|]. split; [reflexivity|]. split; [reflexivity|].
  intros job_config returncode stdout stderr duration Hrc.
  unfold run_inference_job. simpl.
  destruct (Z.eqb_spec returncode 0); [contradiction | reflexivity].
Qed.

(** ** C3: one outcome per job *)

Lemma collect_exits (arrivals : list (job * process)) : forall results,
  Forall (fun jp => exists returncode stdout stderr duration,
                      snd jp = Exits returncode stdout stderr duration)
         arrivals ->
  exists outcomes,
    collect arrivals results = Completed (results ++ outcomes) /\
    Forall2 (fun jp r =>
               exists returncode stdout stderr duration,
                 snd jp = Exits returncode stdout stderr duration /\
                 r = exit_outcome (fst jp) returncode stderr duration)
            arrivals outcomes.
Proof.
  induction arrivals as [|[j p] rest IH]; intros results Hall.
  - exists []. simpl. rewrite app_nil_r. split; constructor.
  - inversion Hall as [|? ? [rc [out [err [d Hp]]]] Hrest]; subst.
    simpl in Hp. subst p. simpl collect.
    destruct (run_inference_job_exit j rc out err d) as [-> _].
    destruct (IH (results ++ [exit_outcome j rc err d]) Hrest)
      as [outcomes [Hc Hf]].
    exists (exit_outcome j rc err d :: outcomes). split.
    + rewrite Hc, <- app_assoc. reflexivity.
    + constructor; [|exact Hf]. now exists rc, out, err, d.
Qed.

(** A pool of one worker at least starts every job when no job keeps its
    worker for ever. *)
Lemma started_all (submitted : list (job * process)) : forall workers,
  1 <= workers ->
  Forall (fun jp => never_exits (snd jp) = false) submitted ->
  started workers submitted = submitted.
Proof.
  induction submitted as [|[j p] rest IH]; intros workers Hw Hall.
  - destruct workers; reflexivity.
  - destruct workers as [|free]; [lia|].
    inversion Hall as [|? ? Hp Hrest]; subst. simpl in Hp.
    cbn [started]. rewrite Hp. f_equal. now apply IH.
Qed.

(** C3, as stated, fails: when the process of one job of four cannot be
    launched, the job raises, [future.result()] raises in the loop, and the
    loop ends with the outcomes that came before: here one, not four,
    and [main] ends with the exception, without a summary. *)
Lemma collect_aborts_on_launch_failure :
  collect four_jobs []
  = Aborted FileNotFoundError
      [mk_outcome 0 true 2%float (lit "p_chunk_0.txt") None] /\
  outcome_of_run (main failing_world five_prompts (lit "c.yaml")
                    (lit "prompts.txt") [0; 1; 2; 3]%Z 1 false)
  = Crashed FileNotFoundError.
Proof. split; reflexivity. Qed.

(** C3, amended: when the process of every submitted job is launched and
    exits, with whatever code, after writing an output that is text, the
    loop ends with as many outcomes as jobs were submitted, whatever the
    order the jobs complete in and whatever the number of workers, one
    at least: the outcomes are those of the jobs in that order, one each,
    with the device and the input file of the job, and an exit code that
    is not zero makes the outcome of its job a failure and nothing
    else. *)
Theorem collect_one_outcome_per_job (workers : nat)
    (submitted arrivals : list (job * process)) :
  1 <= workers ->
  Permutation (started workers submitted) arrivals ->
  Forall (fun jp => exists returncode stdout stderr duration,
                      snd jp = Exits returncode stdout stderr duration)
         submitted ->
  exists results,
    collect arrivals [] = Completed results /\
    length results = length submitted /\
    Forall2 (fun jp r =>
               r_gpu r = job_gpu_id (fst jp) /\
               r_file r = job_input_file (fst jp) /\
               exists returncode stdout stderr duration,
                 snd jp = Exits returncode stdout stderr duration /\
                 r_success r = (returncode =? 0)%Z /\
                 r_time r = duration /\
                 r_error r = (if (returncode =? 0)%Z then None else Some stderr))
            arrivals results.
Proof.
  intros Hw Hperm Hall.
  rewrite started_all in Hperm; [|exact Hw|].
  2:{ eapply Forall_impl; [|exact Hall].
      intros jp [rc [out [err [d ->]]]]. reflexivity. }
  assert (Hall' : Forall (fun jp => exists returncode stdout stderr duration,
                            snd jp = Exits returncode stdout stderr duration)
                         arrivals).
  { rewrite Forall_forall in *. intros jp Hin. apply Hall.
    apply Permutation_sym in Hperm. exact (Permutation_in _ Hperm Hin). }
  destruct (collect_exits [] Hall') as [results [Hc Hf]].
  exists results. split; [exact Hc|]. split.
  - rewrite (Permutation_length Hperm). symmetry.
    exact (Forall2_length Hf).
  - eapply Forall2_impl; [|exact Hf]. simpl.
    intros [j p] r [rc [out [err [d [Hp ->]]]]]. simpl in *.
    unfold exit_outcome.
    destruct (rc =? 0)%Z eqn:Hrc; simpl; repeat split;
      exists rc, out, err, d; rewrite Hrc; repeat split; assumption.
Qed.

Lemma collect_one_outcome_per_job_witness :
  exists results,
    collect (rev four_exits) [] = Completed results /\
    length results = length four_exits /\
    Forall2 (fun jp r =>
               r_gpu r = job_gpu_id (fst jp) /\
               r_file r = job_input_file (fst jp) /\
               exists returncode stdout stderr duration,
                 snd jp = Exits returncode stdout stderr duration /\
                 r_success r = (returncode =? 0)%Z /\
                 r_time r = duration /\
                 r_error r = (if (returncode =? 0)%Z then None else Some stderr))
            (rev four_exits) results.
Proof.
  apply (@collect_one_outcome_per_job 2 four_exits (rev four_exits)).
  - lia.
  - apply Permutation_rev.
  - repeat constructor; simpl; eauto.
Defined.

(** ** C4: a process that outlives every ceiling *)

(** C4, at a failing input: [run_inference_job] sets no ceiling. A job
    whose process never exits never returns, so the loop of [main] waits
    for ever after the other outcomes; a process that takes two hours is
    waited for and reported as a success. [run_benchmark] of the speed
    benchmark, on the same processes, kills them after 1800 seconds and
    returns a failure with the error ["timeout"]. *)
Lemma run_inference_job_sets_no_timeout :
  (forall job_config, run_inference_job job_config NeverExits = Pending) /\
  collect [(job0, Exits 0 [] [] 2%float); (job0, NeverExits);
           (job0, Exits 0 [] [] 4%float)] []
    = Stalled [mk_outcome 0 true 2%float (lit "prompts.txt") None;
               mk_outcome 0 true 4%float (lit "prompts.txt") None] /\
  run_inference_job job0 (Exits 0 [] [] 7200%float)
    = Returned (mk_outcome 0 true 7200%float (lit "prompts.txt") None) /\
  (forall (metrics : Set) (scrape : str -> result metrics)
          (config_file test_input description : str),
     run_benchmark scrape config_file test_input description NeverExits
       = Returned (mk_benchmark config_file description false 1800%float
                     None None (Some (lit "timeout"))) /\
     run_benchmark scrape config_file test_input description
                   (Exits 0 [] [] 7200%float)
       = Returned (mk_benchmark config_file description false 1800%float
                     None None (Some (lit "timeout")))).
Proof.
  split; [reflexivity|]. split; [reflexivity|]. split; [reflexivity|].
  intros metrics scrape config_file test_input description.
  split; reflexivity.
Qed.

(** ** C6: the times of the summary *)

Lemma filter_filter {A : Type} (f : A -> bool) (l : list A) :
  filter f (filter f l) = filter f l.
Proof.
  induction l as [|a l IH]; simpl; [reflexivity|].
  destruct (f a) eqn:Hf; simpl; [rewrite Hf; now f_equal | exact IH].
Qed.

(** The order of the floats: what is not below [a] is not below what is
    below [a], and the same from above. *)
Ltac float_order_cases :=
  unfold SFltb, SFcompare;
  repeat match goal with
         | f : spec_float |- _ => destruct f
         end;
  try discriminate; try reflexivity;
  repeat match goal with s : bool |- _ => destruct s end;
  try discriminate; try reflexivity;
  repeat match goal with
         | |- context [(?x ?= ?y)%Z] => destruct (Z.compare_spec x y)
         end;
  try discriminate; try reflexivity; try lia;
  subst;
  repeat match goal with
         | |- context [PosDef.Pos.compare_cont Eq ?x ?y] =>
             change (PosDef.Pos.compare_cont Eq x y) with (Pos.compare x y);
             destruct (Pos.compare_spec x y)
         end;
  simpl; try discriminate; try reflexivity; try lia.

Lemma ltb_below (y a b : float) :
  PrimFloat.ltb y a = false -> PrimFloat.ltb b a = true ->
  PrimFloat.ltb y b = false.
Proof.
  rewrite !FloatAxioms.ltb_spec. generalize (Prim2SF y) (Prim2SF a) (Prim2SF b).
  intros y' a' b'. float_order_cases.
Qed.

Lemma ltb_above (y a b : float) :
  PrimFloat.ltb a y = false -> PrimFloat.ltb a b = true ->
  PrimFloat.ltb b y = false.
Proof.
  rewrite !FloatAxioms.ltb_spec. generalize (Prim2SF y) (Prim2SF a) (Prim2SF b).
  intros y' a' b'. float_order_cases.
Qed.

Lemma ltb_irrefl (x : float) : PrimFloat.ltb x x = false.
Proof.
  rewrite FloatAxioms.ltb_spec. generalize (Prim2SF x). intros f.
  unfold SFltb, SFcompare. destruct f as [s|s| |s m e]; try reflexivity;
    destruct s; try reflexivity; rewrite Z.compare_refl;
    change (PosDef.Pos.compare_cont Eq m m) with (Pos.compare m m);
    rewrite Pos.compare_refl; reflexivity.
Qed.

Lemma fmin_invariant (ts : list float) : forall m seen,
  In m seen ->
  (forall y, In y seen -> PrimFloat.ltb y m = false) ->
  In (fmin m ts) (seen ++ ts) /\
  forall y, In y (seen ++ ts) -> PrimFloat.ltb y (fmin m ts) = false.
Proof.
  unfold fmin. induction ts as [|x ts IH]; intros m seen Hin Hleast.
  - rewrite app_nil_r. now split.
  - cbn [fold_left].
    replace (seen ++ x :: ts) with ((seen ++ [x]) ++ ts)
      by now rewrite <- app_assoc.
    apply IH.
    + apply in_or_app. destruct (PrimFloat.ltb x m);
        [right; now left | now left].
    + intros y Hy. apply in_app_or in Hy as [Hy|[<-|[]]].
      * destruct (PrimFloat.ltb x m) eqn:Hxm; [|now apply Hleast].
        exact (ltb_below (Hleast y Hy) Hxm).
      * destruct (PrimFloat.ltb x m) eqn:Hxm; [apply ltb_irrefl | exact Hxm].
Qed.

Lemma fmax_invariant (ts : list float) : forall m seen,
  In m seen ->
  (forall y, In y seen -> PrimFloat.ltb m y = false) ->
  In (fmax m ts) (seen ++ ts) /\
  forall y, In y (seen ++ ts) -> PrimFloat.ltb (fmax m ts) y = false.
Proof.
  unfold fmax. induction ts as [|x ts IH]; intros m seen Hin Hmost.
  - rewrite app_nil_r. now split.
  - cbn [fold_left].
    replace (seen ++ x :: ts) with ((seen ++ [x]) ++ ts)
      by now rewrite <- app_assoc.
    apply IH.
    + apply in_or_app. destruct (PrimFloat.ltb m x);
        [right; now left | now left].
    + intros y Hy. apply in_app_or in Hy as [Hy|[<-|[]]].
      * destruct (PrimFloat.ltb m x) eqn:Hmx; [|now apply Hmost].
        exact (ltb_above (Hmost y Hy) Hmx).
      * destruct (PrimFloat.ltb m x) eqn:Hmx; [apply ltb_irrefl | exact Hmx].
Qed.

(** The minimum is one of the times and none is below it; the maximum is
    one of the times and it is below none. *)
Lemma fmin_fmax_extremes (t : float) (ts : list float) :
  (In (fmin t ts) (t :: ts) /\
   forall y, In y (t :: ts) -> PrimFloat.ltb y (fmin t ts) = false) /\
  (In (fmax t ts) (t :: ts) /\
   forall y, In y (t :: ts) -> PrimFloat.ltb (fmax t ts) y = false).
Proof.
  split.
  - apply (@fmin_invariant ts t [t]); [now left|].
    intros y [<-|[]]. apply ltb_irrefl.
  - apply (@fmax_invariant ts t [t]); [now left|].
    intros y [<-|[]]. apply ltb_irrefl.
Qed.

(** C6: the summary counts the failed outcomes and takes its times from
    the successful ones only. With no successful outcome it holds no
    times and no speedup, and nothing is divided; with successful
    outcomes of times [t :: ts] and a batch time that is not zero, the
    average is their sum over their number and the speedup is their sum
    over the batch time; the minimum is one of their times, with none of
    them below it, and the maximum is one of their times, below none of
    them. *)
Theorem summarize_times (jobs : list job) (results : list outcome)
    (total_time : float) :
  let successful := filter r_success results in
  let failed := filter (fun r => negb (r_success r)) results in
  (successful = [] ->
   summarize jobs results total_time
   = Ok (mk_summary (length jobs) 0 failed None)) /\
  (forall t ts,
     map r_time successful = t :: ts ->
     PrimFloat.is_zero total_time = false ->
     exists mn mx,
       summarize jobs results total_time
       = Ok (mk_summary (length jobs) (length successful) failed
               (Some (mk_job_times
                        (fsum (t :: ts) / float_of_nat (length successful))
                        mn mx
                        (fsum (t :: ts) / total_time)))) /\
       In mn (t :: ts) /\
       (forall y, In y (t :: ts) -> PrimFloat.ltb y mn = false) /\
       In mx (t :: ts) /\
       (forall y, In y (t :: ts) -> PrimFloat.ltb mx y = false)) /\
  times_of (summarize jobs results total_time)
  = times_of (summarize jobs successful total_time).
Proof.
  cbv zeta. split; [|split].
  - intros H. unfold summarize. rewrite H. reflexivity.
  - intros t ts Ht Hz. exists (fmin t ts), (fmax t ts).
    destruct (fmin_fmax_extremes t ts) as [[Hmin Hleast] [Hmax Hmost]].
    repeat split; try assumption.
    unfold summarize. rewrite Ht.
    unfold truediv_len, truediv. rewrite Hz.
    destruct (filter r_success results) as [|r rs]; [discriminate|].
    reflexivity.
  - unfold summarize. rewrite filter_filter.
    destruct (map r_time (filter r_success results)) as [|t ts]; [reflexivity|].
    destruct (truediv_len (fsum (t :: ts))
                (length (filter r_success results))); [|reflexivity].
    cbn [bind]. destruct (truediv (fsum (t :: ts)) total_time); reflexivity.
Qed.

Lemma summarize_times_witness :
  (exists mn mx,
     summarize (map fst four_exits) three_successes 6%float
     = Ok (mk_summary 4 3
             [mk_outcome 1 false 100%float (lit "p_chunk_1.txt")
                         (Some (lit "killed"))]
             (Some (mk_job_times 4%float mn mx 2%float))) /\
     In mn [2%float; 4%float; 6%float] /\
     (forall y, In y [2%float; 4%float; 6%float] ->
                PrimFloat.ltb y mn = false) /\
     In mx [2%float; 4%float; 6%float] /\
     (forall y, In y [2%float; 4%float; 6%float] ->
                PrimFloat.ltb mx y = false)) /\
  (exists mn mx,
     summarize (map fst four_exits) unsorted_successes 6%float
     = Ok (mk_summary 4 4
             [mk_outcome 1 false 1%float (lit "p_chunk_1.txt")
                         (Some (lit "killed"))]
             (Some (mk_job_times 3.75%float mn mx 2.5%float))) /\
     In mn [4%float; 2%float; 6%float; 3%float] /\
     (forall y, In y [4%float; 2%float; 6%float; 3%float] ->
                PrimFloat.ltb y mn = false) /\
     In mx [4%float; 2%float; 6%float; 3%float] /\
     (forall y, In y [4%float; 2%float; 6%float; 3%float] ->
                PrimFloat.ltb mx y = false)) /\
  summarize (map fst four_exits)
            [mk_outcome 1 false 100%float (lit "p_chunk_1.txt") None] 6%float
  = Ok (mk_summary 4 0
          [mk_outcome 1 false 100%float (lit "p_chunk_1.txt") None] None).
Proof.
  split; [|split].
  - exact (proj1 (proj2 (summarize_times (map fst four_exits) three_successes
                           6%float))
                 2%float [4%float; 6%float] eq_refl eq_refl).
  - exact (proj1 (proj2 (summarize_times (map fst four_exits)
                           unsorted_successes 6%float))
                 4%float [2%float; 6%float; 3%float] eq_refl eq_refl).
  - exact (proj1 (summarize_times (map fst four_exits)
                    [mk_outcome 1 false 100%float (lit "p_chunk_1.txt") None]
                    6%float) eq_refl).
Defined.

(** * Further properties of the scripts *)

(** ** The number and the sizes of the chunks *)

Lemma chunk_size_nat (len : nat) (num_chunks : Z) :
  (1 <= num_chunks)%Z ->
  Z.to_nat (Z.max 1 (Z.of_nat len / num_chunks))
  = Nat.max 1 (len / Z.to_nat num_chunks).
Proof.
  intros Hn.
  rewrite <- (Z2Nat.id num_chunks) at 1 by lia.
  rewrite <- Nat2Z.inj_div.
  change 1%Z with (Z.of_nat 1). rewrite <- Nat2Z.inj_max. apply Nat2Z.id.
Qed.

Lemma chunk_count_window (len n : nat) :
  1 <= n -> 1 <= len ->
  Nat.min n len <= chunk_count len (Nat.max 1 (len / n)) <= 2 * n - 1.
Proof.
  intros Hn Hlen.
  pose proof (Nat.Div0.mul_div_le len n) as Hlow.
  pose proof (Nat.mul_succ_div_gt len n ltac:(lia)) as Hhigh.
  destruct (Nat.le_gt_cases n len) as [Hle|Hgt].
  - assert (Hq : 1 <= len / n) by (apply Nat.div_le_lower_bound; lia).
    replace (Nat.max 1 (len / n)) with (len / n) by lia.
    split.
    + replace (Nat.min n len) with n by lia.
      pose proof (@chunk_count_gt len (len / n) (n - 1) ltac:(lia)
                    ltac:(nia)).
      lia.
    + apply chunk_count_le; [lia | nia].
  - rewrite (Nat.div_small len n) by lia. simpl Nat.max.
    pose proof (@chunk_count_bounds len 1 ltac:(lia) Hlen).
    pose proof (@chunk_count_gt len 1 (len - 1) ltac:(lia) ltac:(lia)).
    lia.
Qed.

(** X1: for a workload of [len] lines, [len >= 1], and [num_chunks >= 1],
    the number of chunk files is at least the smaller of [num_chunks] and
    [len], at most [2 * num_chunks - 1] and at most [len]. *)
Theorem split_input_file_count_window (fs : filesystem) (input_file raw : str)
    (num_chunks : Z) :
  fs_read fs input_file = Some raw ->
  stripped_lines (universal_newlines raw) <> [] ->
  (1 <= num_chunks)%Z ->
  exists fs' chunks,
    split_input_file fs input_file num_chunks = Ok (fs', chunks) /\
    (Z.min num_chunks
           (Z.of_nat (length (stripped_lines (universal_newlines raw))))
     <= Z.of_nat (length chunks) <= 2 * num_chunks - 1)%Z /\
    length chunks <= length (stripped_lines (universal_newlines raw)).
Proof.
  intros Hread Hne Hn.
  destruct (@split_input_file_partition fs input_file raw num_chunks Hread
              ltac:(lia))
    as [fs' [chunks [parts [Hsplit [Hlen _]]]]].
  exists fs', chunks. split; [exact Hsplit|].
  set (len := length (stripped_lines (universal_newlines raw))) in *.
  assert (Hpos : 1 <= len).
  { subst len. destruct (stripped_lines (universal_newlines raw));
      [contradiction | simpl; lia]. }
  rewrite chunk_size_nat in Hlen by assumption.
  pose proof (@chunk_count_window len (Z.to_nat num_chunks) ltac:(lia) Hpos)
    as Hwin.
  pose proof (@chunk_count_bounds len (Nat.max 1 (len / Z.to_nat num_chunks))
                ltac:(lia) Hpos) as Hb.
  rewrite Hlen. lia.
Qed.

Lemma split_input_file_count_window_witness :
  exists fs' chunks,
    split_input_file five_prompts (lit "prompts.txt") 3 = Ok (fs', chunks) /\
    (Z.min 3 (Z.of_nat (length (stripped_lines (universal_newlines
        (join [LF] [lit "a"; lit "b"; lit "c"; lit "d"; lit "e"])))))
     <= Z.of_nat (length chunks) <= 2 * 3 - 1)%Z /\
    length chunks <= length (stripped_lines (universal_newlines
        (join [LF] [lit "a"; lit "b"; lit "c"; lit "d"; lit "e"]))).
Proof.
  apply (@split_input_file_count_window five_prompts (lit "prompts.txt")
           (join [LF] [lit "a"; lit "b"; lit "c"; lit "d"; lit "e"]) 3).
  - reflexivity.
  - vm_compute. discriminate.
  - lia.
Defined.

Lemma length_chunk_lines_at (lines : list str) (chunk_size k : nat) :
  length (chunk_lines_at lines chunk_size k)
  = Nat.min chunk_size (length lines - k * chunk_size).
Proof.
  unfold chunk_lines_at, slice.
  rewrite length_firstn, length_skipn. f_equal. lia.
Qed.

Lemma nth_map_seq {A : Type} (f : nat -> A) (n k : nat) (d : A) :
  k < n -> nth k (map f (seq 0 n)) d = f k.
Proof.
  intros Hk. rewrite (nth_indep _ d (f 0)) by now rewrite length_map, length_seq.
  rewrite (map_nth f (seq 0 n) 0 k). f_equal. now rewrite seq_nth.
Qed.

Lemma chunk_read_back (fs : filesystem) (input_file : str)
    (lines : list str) (chunk_size n k : nat) :
  Forall clean lines ->
  k < n ->
  read_prompts
    (rev (map (chunk_write input_file lines chunk_size) (seq 0 n)) ++ fs)
    (chunk_name input_file k)
  = Ok (chunk_lines_at lines chunk_size k).
Proof.
  intros Hclean Hk. unfold read_prompts, open_read.
  rewrite (@chunk_stored fs input_file lines chunk_size n k Hk). simpl.
  pose proof (chunk_clean chunk_size k Hclean) as Hpart.
  rewrite universal_newlines_id by now apply join_no_CR.
  now rewrite stripped_lines_join.
Qed.

(** X2: every chunk file but the last reads back as exactly
    [chunk_size = max(1, len(lines) // num_chunks)] lines, and the last
    one as what is left: at least one line and at most [chunk_size]. The
    lines left over by the division never go into a chunk longer than
    the others. *)
Theorem split_input_file_chunk_sizes (fs : filesystem) (input_file raw : str)
    (num_chunks : Z) :
  fs_read fs input_file = Some raw ->
  num_chunks <> 0%Z ->
  let lines := stripped_lines (universal_newlines raw) in
  let chunk_size := Z.to_nat (Z.max 1 (Z.of_nat (length lines) / num_chunks)) in
  exists fs' chunks,
    split_input_file fs input_file num_chunks = Ok (fs', chunks) /\
    forall k, k < length chunks ->
      exists part,
        read_prompts fs' (nth k chunks []) = Ok part /\
        fs_read fs' (nth k chunks []) = Some (join [LF] part) /\
        1 <= length part <= chunk_size /\
        (S k < length chunks -> length part = chunk_size).
Proof.
  intros Hread Hn lines chunk_size.
  assert (Hopen : open_read fs input_file = Ok (universal_newlines raw)).
  { unfold open_read. now rewrite Hread. }
  assert (Hsize : chunk_size_of lines num_chunks = Ok chunk_size)
    by now apply chunk_size_of_Ok.
  pose proof (chunk_size_of_pos _ _ Hsize) as Hpos.
  assert (Hclean : Forall clean lines).
  { apply stripped_lines_clean, universal_newlines_no_CR. }
  set (n := chunk_count (length lines) chunk_size).
  exists (rev (map (chunk_write input_file lines chunk_size) (seq 0 n)) ++ fs),
         (map (chunk_name input_file) (seq 0 n)).
  split; [now apply split_input_file_eq|].
  assert (Hstart : forall k, k < n -> k * chunk_size < length lines).
  { intros k Hk.
    destruct (Nat.le_gt_cases (length lines) (k * chunk_size)) as [H|H];
      [|exact H].
    pose proof (chunk_count_le k Hpos H). unfold n in Hk. lia. }
  intros k Hk. rewrite length_map, length_seq in Hk.
  rewrite nth_map_seq by assumption.
  exists (chunk_lines_at lines chunk_size k).
  split; [now apply chunk_read_back|].
  split; [now apply chunk_stored|].
  rewrite length_chunk_lines_at. split.
  - specialize (Hstart k Hk). lia.
  - rewrite length_map, length_seq. intros Hk'.
    specialize (Hstart (S k) Hk'). simpl in Hstart. lia.
Qed.

Lemma split_input_file_chunk_sizes_witness :
  exists fs' chunks,
    split_input_file five_prompts (lit "prompts.txt") 2 = Ok (fs', chunks) /\
    forall k, k < length chunks ->
      exists part,
        read_prompts fs' (nth k chunks []) = Ok part /\
        fs_read fs' (nth k chunks []) = Some (join [LF] part) /\
        1 <= length part <= 2 /\
        (S k < length chunks -> length part = 2).
Proof.
  apply (@split_input_file_chunk_sizes five_prompts (lit "prompts.txt")
           (join [LF] [lit "a"; lit "b"; lit "c"; lit "d"; lit "e"]) 2).
  - reflexivity.
  - discriminate.
Defined.

(** ** What the split writes and what it leaves alone *)

Lemma chunk_name_not_input (input_file : str) (k : nat) :
  chunk_name input_file k <> input_file.
Proof.
  unfold chunk_name. intros H.
  rewrite <- (app_nil_r input_file) in H at 2.
  apply app_inv_head in H. discriminate H.
Qed.

(** X3: the chunk files have names of their own: no two chunks share a
    file and none is the input file; the split changes no other file than
    the chunk files, so the input reads after the split as before. *)
Theorem split_input_file_frame (fs : filesystem) (input_file raw : str)
    (num_chunks : Z) :
  fs_read fs input_file = Some raw ->
  num_chunks <> 0%Z ->
  exists fs' chunks,
    split_input_file fs input_file num_chunks = Ok (fs', chunks) /\
    NoDup chunks /\
    ~ In input_file chunks /\
    (forall path, ~ In path chunks -> fs_read fs' path = fs_read fs path) /\
    fs_read fs' input_file = Some raw.
Proof.
  intros Hread Hn.
  assert (Hopen : open_read fs input_file = Ok (universal_newlines raw)).
  { unfold open_read. now rewrite Hread. }
  pose proof (@chunk_size_of_Ok (stripped_lines (universal_newlines raw))
                num_chunks Hn) as Hsize.
  pose proof (split_input_file_eq _ _ _ Hopen Hsize) as Hsplit.
  cbv zeta in Hsplit. eexists. eexists. split; [exact Hsplit|].
  assert (Hnot : ~ In input_file
                   (map (chunk_name input_file)
                      (seq 0 (chunk_count
                         (length (stripped_lines (universal_newlines raw)))
                         (Z.to_nat (Z.max 1
                            (Z.of_nat (length (stripped_lines
                               (universal_newlines raw))) / num_chunks))))))).
  { intros Hin. apply in_map_iff in Hin as [k [Hk _]].
    exact (@chunk_name_not_input _ _ Hk). }
  assert (Hframe : forall path,
             ~ In path (map (chunk_name input_file)
                      (seq 0 (chunk_count
                         (length (stripped_lines (universal_newlines raw)))
                         (Z.to_nat (Z.max 1
                            (Z.of_nat (length (stripped_lines
                               (universal_newlines raw))) / num_chunks)))))) ->
             fs_read
               (rev (map (chunk_write input_file
                            (stripped_lines (universal_newlines raw))
                            (Z.to_nat (Z.max 1
                               (Z.of_nat (length (stripped_lines
                                  (universal_newlines raw))) / num_chunks))))
                       (seq 0 (chunk_count
                          (length (stripped_lines (universal_newlines raw)))
                          (Z.to_nat (Z.max 1
                             (Z.of_nat (length (stripped_lines
                                (universal_newlines raw))) / num_chunks))))))
                ++ fs) path
             = fs_read fs path).
  { intros path Hpath. rewrite fs_read_app, fs_read_None; [reflexivity|].
    rewrite map_rev, map_map. simpl. intros Hin. apply in_rev in Hin.
    now apply Hpath. }
  repeat split.
  - apply chunk_names_NoDup.
  - exact Hnot.
  - exact Hframe.
  - rewrite Hframe by exact Hnot. exact Hread.
Qed.

Lemma split_input_file_frame_witness :
  exists fs' chunks,
    split_input_file five_prompts (lit "prompts.txt") 2 = Ok (fs', chunks) /\
    NoDup chunks /\
    ~ In (lit "prompts.txt") chunks /\
    (forall path, ~ In path chunks ->
                  fs_read fs' path = fs_read five_prompts path) /\
    fs_read fs' (lit "prompts.txt")
    = Some (join [LF] [lit "a"; lit "b"; lit "c"; lit "d"; lit "e"]).
Proof.
  apply (@split_input_file_frame five_prompts (lit "prompts.txt")
           (join [LF] [lit "a"; lit "b"; lit "c"; lit "d"; lit "e"]) 2).
  - reflexivity.
  - discriminate.
Defined.

Lemma chunk_size_one (len : nat) (num_chunks : Z) :
  (num_chunks < 0)%Z \/ (Z.of_nat len < num_chunks)%Z ->
  Z.to_nat (Z.max 1 (Z.of_nat len / num_chunks)) = 1.
Proof.
  intros [Hneg|Hbig].
  - pose proof (Z.div_mod (Z.of_nat len) num_chunks ltac:(lia)) as Hdm.
    pose proof (Z.mod_neg_bound (Z.of_nat len) num_chunks Hneg) as Hr.
    assert (Z.of_nat len / num_chunks <= 0)%Z by nia.
    lia.
  - rewrite Z.div_small by lia. reflexivity.
Qed.

Lemma chunk_lines_at_one (lines : list str) (k : nat) :
  k < length lines -> chunk_lines_at lines 1 k = [nth k lines []].
Proof.
  unfold chunk_lines_at, slice. rewrite Nat.mul_1_r.
  replace (k + 1 - k) with 1 by lia.
  revert k. induction lines as [|l lines IH]; intros k Hk;
    [simpl in Hk; lia|].
  destruct k as [|k]; [reflexivity|]. simpl in *. apply IH. lia.
Qed.

(** X4: [split_input_file] at the edges of [num_chunks], for an input
    file that is missing or else is read as text: a missing file raises
    [FileNotFoundError]; with [num_chunks = 0] the division raises
    [ZeroDivisionError], whatever the file holds; a negative
    [num_chunks], or one above the number of lines, is not refused: the
    chunk size is 1 and every line gets a chunk file of its own, in
    order. *)
Theorem split_input_file_edges (fs : filesystem) (input_file : str)
    (num_chunks : Z) :
  (fs_read fs input_file = None ->
   split_input_file fs input_file num_chunks = Raise FileNotFoundError) /\
  (forall raw,
     fs_read fs input_file = Some raw -> num_chunks = 0%Z ->
     split_input_file fs input_file num_chunks = Raise ZeroDivisionError) /\
  (forall raw,
     fs_read fs input_file = Some raw ->
     let lines := stripped_lines (universal_newlines raw) in
     (num_chunks < 0)%Z \/ (Z.of_nat (length lines) < num_chunks)%Z ->
     exists fs' chunks,
       split_input_file fs input_file num_chunks = Ok (fs', chunks) /\
       length chunks = length lines /\
       forall k, k < length lines ->
         read_prompts fs' (nth k chunks []) = Ok [nth k lines []]).
Proof.
  split; [|split].
  - intros Hread. unfold split_input_file, open_read. now rewrite Hread.
  - intros raw Hread ->. unfold split_input_file, open_read. rewrite Hread.
    reflexivity.
  - intros raw Hread lines Hedge.
    assert (Hn : num_chunks <> 0%Z) by lia.
    assert (Hopen : open_read fs input_file = Ok (universal_newlines raw)).
    { unfold open_read. now rewrite Hread. }
    assert (Hsize : chunk_size_of lines num_chunks = Ok 1).
    { unfold lines. rewrite chunk_size_of_Ok by assumption.
      now rewrite chunk_size_one. }
    assert (Hclean : Forall clean lines).
    { apply stripped_lines_clean, universal_newlines_no_CR. }
    assert (Hcount : chunk_count (length lines) 1 = length lines).
    { unfold chunk_count. rewrite Nat.add_sub. apply Nat.div_1_r. }
    eexists. eexists. split; [exact (split_input_file_eq _ _ _ Hopen Hsize)|].
    fold lines. rewrite Hcount. split.
    + now rewrite length_map, length_seq.
    + intros k Hk. rewrite nth_map_seq by assumption.
      rewrite chunk_read_back by assumption.
      now rewrite chunk_lines_at_one.
Qed.

(** ** The plan without [--split_input] *)

Lemma map_const_seq {A : Type} (a : A) (start n : nat) :
  map (fun _ => a) (seq start n) = repeat a n.
Proof.
  revert start. induction n as [|n IH]; intros start; simpl;
    [reflexivity | now rewrite IH].
Qed.

(** X5: without [--split_input] the plan is built whatever the arguments,
    with no file read or written: [per_gpu_jobs] jobs (none when it is
    negative) for each device of the list, in the order of the list, all
    on the same configuration and the same input file;
    [len(gpu_ids) * per_gpu_jobs] jobs in all when [per_gpu_jobs >= 0]. *)
Theorem prepare_jobs_broadcast (fs : filesystem) (config input_file : str)
    (gpu_ids : list Z) (per_gpu_jobs : Z) :
  exists jobs,
    prepare_jobs fs config input_file gpu_ids per_gpu_jobs false
    = Ok (mk_plan fs [] jobs) /\
    map job_gpu_id jobs
    = flat_map (fun gpu_id => repeat gpu_id (Z.to_nat per_gpu_jobs)) gpu_ids /\
    Forall (fun j => job_config_file j = config /\
                     job_input_file j = input_file) jobs /\
    Z.of_nat (length jobs)
    = (Z.of_nat (length gpu_ids) * Z.max 0 per_gpu_jobs)%Z.
Proof.
  eexists. split; [reflexivity|]. split; [|split].
  - unfold broadcast_jobs, range1.
    induction gpu_ids as [|g gpu_ids IH]; [reflexivity|].
    cbn [flat_map]. rewrite map_app, IH, map_map. cbn [job_gpu_id].
    now rewrite map_const_seq.
  - apply Forall_forall. intros j Hj. unfold broadcast_jobs in Hj.
    apply in_flat_map in Hj as [g [_ Hj]].
    apply in_map_iff in Hj as [k [<- _]]. split; reflexivity.
  - rewrite broadcast_jobs_length. lia.
Qed.

(** ** The cleanup *)

Lemma fs_read_remove (fs : filesystem) (p path : str) :
  fs_read (fs_remove fs p) path
  = if str_eq_dec p path then None else fs_read fs path.
Proof.
  unfold fs_remove.
  induction fs as [|[q c] fs IH]; simpl.
  - now destruct (str_eq_dec p path).
  - destruct (str_eq_dec q p) as [->|Hqp]; simpl.
    + rewrite IH. destruct (str_eq_dec p path); reflexivity.
    + rewrite IH. destruct (str_eq_dec q path) as [->|Hq]; [|reflexivity].
      destruct (str_eq_dec p path); [congruence | reflexivity].
Qed.

(** X6: the cleanup loop removes every file of [chunk_files], passes over
    the ones that do not exist, and leaves every other file as it is. *)
Theorem cleanup_removes_chunks (chunk_files : list str) :
  forall (fs : filesystem) (path : str),
    (In path chunk_files -> fs_read (cleanup fs chunk_files) path = None) /\
    (~ In path chunk_files ->
     fs_read (cleanup fs chunk_files) path = fs_read fs path).
Proof.
  unfold cleanup.
  induction chunk_files as [|c rest IH]; intros fs path; simpl.
  - split; [contradiction | reflexivity].
  - assert (Hstep : forall q,
              fs_read (if fs_exists fs c then fs_remove fs c else fs) q
              = if str_eq_dec c q then None else fs_read fs q).
    { intros q. unfold fs_exists.
      destruct (fs_read fs c) eqn:Hc.
      - apply fs_read_remove.
      - destruct (str_eq_dec c q) as [<-|_]; [exact Hc | reflexivity]. }
    destruct (IH (if fs_exists fs c then fs_remove fs c else fs) path)
      as [Hin Hout].
    split.
    + intros [->|Hrest].
      * destruct (in_dec str_eq_dec path rest) as [Hr|Hr]; [now apply Hin|].
        rewrite (Hout Hr), Hstep.
        destruct (str_eq_dec path path); congruence.
      * now apply Hin.
    + intros Hnot. rewrite Hout by tauto. rewrite Hstep.
      destruct (str_eq_dec c path) as [->|_]; [tauto | reflexivity].
Qed.

(** ** The counts and the times of the summary *)

Lemma filter_partition_length {A : Type} (f : A -> bool) (l : list A) :
  length (filter f l) + length (filter (fun a => negb (f a)) l) = length l.
Proof.
  induction l as [|a l IH]; simpl; [reflexivity|].
  destruct (f a); simpl; lia.
Qed.

Lemma filter_nil_existsb {A : Type} (f : A -> bool) (l : list A) :
  filter f l = [] <-> existsb f l = false.
Proof.
  induction l as [|a l IH]; simpl; [tauto|].
  destruct (f a); simpl; [split; discriminate | exact IH].
Qed.

(** X7: the summary raises in one case only, [ZeroDivisionError] when some
    job succeeded and the batch time is zero. In every other case it
    returns, and then it counts the planned jobs, the successful and the
    failed outcomes add up to the outcomes received, and the failed jobs
    it lists are the outcomes with [success = False], in the order they
    came. *)
Theorem summarize_counts (jobs : list job) (results : list outcome)
    (total_time : float) :
  (existsb r_success results && PrimFloat.is_zero total_time = true ->
   summarize jobs results total_time = Raise ZeroDivisionError) /\
  (existsb r_success results && PrimFloat.is_zero total_time = false ->
   exists s,
     summarize jobs results total_time = Ok s /\
     total_jobs s = length jobs /\
     successful_count s + length (failed_jobs s) = length results /\
     failed_jobs s = filter (fun r => negb (r_success r)) results /\
     (times s = None <-> existsb r_success results = false)).
Proof.
  unfold summarize.
  pose proof (filter_partition_length r_success results) as Hlen.
  pose proof (filter_nil_existsb r_success results) as Hnil.
  destruct (filter r_success results) as [|r rs] eqn:Hf.
  - assert (He : existsb r_success results = false) by now apply Hnil.
    rewrite He. simpl. split; [discriminate|]. intros _.
    eexists. split; [reflexivity|]. simpl.
    repeat split; try assumption; try reflexivity.
  - assert (He : existsb r_success results = true).
    { destruct (existsb r_success results); [reflexivity|].
      destruct Hnil as [_ H]. discriminate (H eq_refl). }
    rewrite He. simpl andb. cbn [map]. unfold truediv_len, truediv.
    cbn [length Nat.eqb bind].
    destruct (PrimFloat.is_zero total_time).
    + split; [reflexivity | discriminate].
    + split; [discriminate|]. intros _.
      eexists. split; [reflexivity|]. simpl.
      repeat split; try assumption; try reflexivity; discriminate.
Qed.

Lemma summarize_counts_witness :
  exists s,
    summarize (map fst four_exits) three_successes 6%float = Ok s /\
    total_jobs s = length (map fst four_exits) /\
    successful_count s + length (failed_jobs s) = length three_successes /\
    failed_jobs s = filter (fun r => negb (r_success r)) three_successes /\
    (times s = None <-> existsb r_success three_successes = false).
Proof.
  apply (proj2 (summarize_counts (map fst four_exits) three_successes
                  6%float)).
  reflexivity.
Defined.

Lemma fmin_In (ts : list float) : forall t, In (fmin t ts) (t :: ts).
Proof.
  unfold fmin. induction ts as [|y ts IH]; intros t; simpl.
  - now left.
  - destruct (IH (if PrimFloat.ltb y t then y else t)) as [H|H].
    + destruct (PrimFloat.ltb y t); [right; left | left]; exact H.
    + right. right. exact H.
Qed.

Lemma fmax_In (ts : list float) : forall t, In (fmax t ts) (t :: ts).
Proof.
  unfold fmax. induction ts as [|y ts IH]; intros t; simpl.
  - now left.
  - destruct (IH (if PrimFloat.ltb t y then y else t)) as [H|H].
    + destruct (PrimFloat.ltb t y); [right; left | left]; exact H.
    + right. right. exact H.
Qed.

(** X8: the minimum and the maximum of the summary are times of
    successful outcomes: the time of a failed job is never reported as
    the fastest or the slowest. *)
Theorem summarize_min_max (jobs : list job) (results : list outcome)
    (total_time : float) (s : summary) (jt : job_times) :
  summarize jobs results total_time = Ok s ->
  times s = Some jt ->
  (exists r, In r results /\ r_success r = true /\ r_time r = min_time jt) /\
  (exists r, In r results /\ r_success r = true /\ r_time r = max_time jt).
Proof.
  unfold summarize. intros Hs Ht.
  destruct (map r_time (filter r_success results)) as [|t ts] eqn:Hm.
  - injection Hs as <-. discriminate Ht.
  - destruct (truediv_len (fsum (t :: ts))
                (length (filter r_success results))) as [avg|e];
      [|discriminate].
    cbn [bind] in Hs.
    destruct (truediv (fsum (t :: ts)) total_time) as [sp|e]; [|discriminate].
    cbn [bind] in Hs. injection Hs as <-. simpl in Ht. injection Ht as <-.
    simpl.
    assert (Hsrc : forall x, In x (t :: ts) ->
              exists r, In r results /\ r_success r = true /\ r_time r = x).
    { intros x Hx. rewrite <- Hm in Hx.
      apply in_map_iff in Hx as [r [Hr Hin]].
      apply filter_In in Hin as [Hin Hok]. now exists r. }
    split; apply Hsrc; [apply fmin_In | apply fmax_In].
Qed.

Lemma summarize_min_max_witness :
  (exists r, In r three_successes /\ r_success r = true /\
             r_time r = 2%float) /\
  (exists r, In r three_successes /\ r_success r = true /\
             r_time r = 6%float).
Proof.
  apply (@summarize_min_max (map fst four_exits) three_successes 6%float
           (mk_summary 4 3
              [mk_outcome 1 false 100%float (lit "p_chunk_1.txt")
                          (Some (lit "killed"))]
              (Some (mk_job_times 4%float 2%float 6%float 2%float)))
           (mk_job_times 4%float 2%float 6%float 2%float)).
  - reflexivity.
  - reflexivity.
Defined.

(** ** Whole runs of [main] *)

Lemma submit_all_fst (w : world) (jobs : list job) :
  map fst (submit_all w jobs) = jobs.
Proof.
  unfold submit_all. rewrite map_map. simpl.
  generalize 0 as start.
  induction jobs as [|j jobs IH]; intros start; simpl; [reflexivity|].
  now rewrite IH.
Qed.

Lemma submit_all_spawned (w : world) (jobs : list job) (jp : job * process) :
  In jp (submit_all w jobs) -> exists i, snd jp = spawn w i (fst jp).
Proof.
  unfold submit_all. intros H. apply in_map_iff in H as [[i j] [<- _]].
  now exists i.
Qed.

(** A world where every process that is launched exits, and where the
    futures complete in some order, each once. *)
Definition orderly (w : world) : Prop :=
  (forall l, Permutation l (completion_order w l)) /\
  (forall i j, exists returncode stdout stderr duration,
     spawn w i j = Exits returncode stdout stderr duration).

Lemma chunk_job_inputs (config : str) (gpu_ids : list Z)
    (chunk_files : list str) : forall start,
  map job_input_file
      (map (fun kf => chunk_job config gpu_ids (fst kf) (snd kf))
           (combine (seq start (length chunk_files)) chunk_files))
  = chunk_files.
Proof.
  induction chunk_files as [|c rest IH]; intros start; simpl;
    [reflexivity | now rewrite IH].
Qed.

Lemma Forall2_In_left {A B : Type} (R : A -> B -> Prop) (l : list A)
    (l' : list B) (a : A) :
  Forall2 R l l' -> In a l -> exists b, In b l' /\ R a b.
Proof.
  induction 1 as [|x y l l' Hxy _ IH]; intros Hin; [contradiction|].
  destruct Hin as [->|Hin].
  - exists y. split; [now left | exact Hxy].
  - destruct (IH Hin) as [b [Hb Hab]]. exists b. split; [now right | exact Hab].
Qed.

(** The plan of valid arguments. *)
Lemma prepare_jobs_valid (fs : filesystem) (config input_file : str)
    (gpu_ids : list Z) (per_gpu_jobs : Z) (split_input : bool) :
  gpu_ids <> [] ->
  (1 <= per_gpu_jobs)%Z ->
  (split_input = true -> fs_exists fs input_file = true) ->
  exists pl,
    prepare_jobs fs config input_file gpu_ids per_gpu_jobs split_input = Ok pl /\
    (split_input = false -> plan_fs pl = fs /\ plan_chunk_files pl = []) /\
    (split_input = true ->
     map job_input_file (plan_jobs pl) = plan_chunk_files pl /\
     (forall path, ~ In path (plan_chunk_files pl) ->
                   fs_read (plan_fs pl) path = fs_read fs path) /\
     (forall path, In path (plan_chunk_files pl) ->
                   fs_exists (plan_fs pl) path = true) /\
     (length (plan_chunk_files pl) = 0 <->
      exists raw, fs_read fs input_file = Some raw /\
                  stripped_lines (universal_newlines raw) = [])).
Proof.
  intros Hne Hper Hfile. unfold prepare_jobs.
  destruct split_input.
  - specialize (Hfile eq_refl). unfold fs_exists in Hfile.
    destruct (fs_read fs input_file) as [raw|] eqn:Hread; [|discriminate].
    assert (Htotal : (Z.of_nat (length gpu_ids) * per_gpu_jobs <> 0)%Z).
    { destruct gpu_ids; [contradiction | simpl length; nia]. }
    destruct (split_input_file_partition fs input_file Hread Htotal)
      as [fs' [chunks [parts [Hsplit [Hlen [Hparts _]]]]]].
    assert (Hopen : open_read fs input_file = Ok (universal_newlines raw)).
    { unfold open_read. now rewrite Hread. }
    pose proof (@chunk_size_of_Ok (stripped_lines (universal_newlines raw))
                  _ Htotal) as Hsize.
    pose proof (split_input_file_eq _ _ _ Hopen Hsize) as Heq.
    cbv zeta in Heq. rewrite Hsplit in Heq. injection Heq as Hfs Hchunks.
    rewrite Hsplit. cbn [bind snd fst].
    rewrite (chunk_jobs_eq config chunks Hne 0). cbn [bind].
    eexists. split; [reflexivity|]. split; [discriminate|]. intros _.
    cbn [plan_jobs plan_chunk_files plan_fs]. repeat split.
    + apply chunk_job_inputs.
    + intros path Hpath. rewrite Hfs, fs_read_app, fs_read_None;
        [reflexivity|].
      rewrite map_rev, map_map. simpl. intros Hin. apply in_rev in Hin.
      apply Hpath. now rewrite Hchunks.
    + intros path Hpath. unfold fs_exists.
      destruct (@Forall2_In_left _ _ _ _ _ _ Hparts Hpath)
        as [part [_ [Hstored _]]].
      now rewrite Hstored.
    + intros H0. exists raw. split; [reflexivity|].
      rewrite Hlen in H0.
      destruct (stripped_lines (universal_newlines raw)) as [|l ls] eqn:Hl;
        [reflexivity|].
      pose proof (@chunk_count_bounds (length (l :: ls))
                    (Z.to_nat (Z.max 1 (Z.of_nat (length (l :: ls)) /
                       (Z.of_nat (length gpu_ids) * per_gpu_jobs))))
                    ltac:(lia) ltac:(simpl; lia)).
      lia.
    + intros [raw' [Hr Hempty]]. assert (raw' = raw) by congruence. subst raw'.
      rewrite Hlen, Hempty. simpl length. apply chunk_count_0. lia.
  - eexists. split; [reflexivity|]. split; [now split | discriminate].
Qed.

Lemma summarize_returns (jobs : list job) (results : list outcome)
    (total_time : float) :
  PrimFloat.is_zero total_time = false ->
  exists s,
    summarize jobs results total_time = Ok s /\
    total_jobs s = length jobs /\
    successful_count s + length (failed_jobs s) = length results.
Proof.
  intros Hz. unfold summarize.
  pose proof (filter_partition_length r_success results) as Hlen.
  destruct (filter r_success results) as [|r rs].
  - eexists. split; [reflexivity|]. simpl. split; [reflexivity | exact Hlen].
  - cbn [map]. unfold truediv_len, truediv. rewrite Hz.
    cbn [length Nat.eqb bind].
    eexists. split; [reflexivity|]. simpl. split; [reflexivity | exact Hlen].
Qed.

(** A run of [main] on valid arguments in an orderly world. *)
Lemma main_orderly (w : world) (fs : filesystem) (config input_file : str)
    (gpu_ids : list Z) (per_gpu_jobs : Z) (split_input : bool) :
  gpu_ids <> [] ->
  (1 <= per_gpu_jobs)%Z ->
  (split_input = true -> fs_exists fs input_file = true) ->
  orderly w ->
  PrimFloat.is_zero (batch_time w) = false ->
  exists pl outcomes s,
    prepare_jobs fs config input_file gpu_ids per_gpu_jobs split_input = Ok pl /\
    Forall2 (fun jp r =>
               exists returncode stdout stderr duration,
                 snd jp = Exits returncode stdout stderr duration /\
                 r = exit_outcome (fst jp) returncode stderr duration)
            (completion_order w (submit_all w (plan_jobs pl))) outcomes /\
    summarize (plan_jobs pl) outcomes (batch_time w) = Ok s /\
    total_jobs s = length (plan_jobs pl) /\
    successful_count s + length (failed_jobs s) = length outcomes /\
    main w fs config input_file gpu_ids per_gpu_jobs split_input
    = mk_run (plan_jobs pl)
             (if split_input then cleanup (plan_fs pl) (plan_chunk_files pl)
              else plan_fs pl)
             (Reported outcomes s).
Proof.
  intros Hne Hper Hfile [Hperm Hexit] Hz.
  destruct (prepare_jobs_valid fs config input_file Hne Hper Hfile)
    as [pl [Hprep _]].
  assert (Htotal : (1 <= Z.of_nat (length gpu_ids) * per_gpu_jobs)%Z).
  { destruct gpu_ids; [contradiction | simpl length; nia]. }
  assert (Hall : Forall (fun jp => exists returncode stdout stderr duration,
                           snd jp = Exits returncode stdout stderr duration)
                        (completion_order w (submit_all w (plan_jobs pl)))).
  { apply Forall_forall. intros jp Hin.
    apply (Permutation_in _ (Permutation_sym (Hperm _))) in Hin.
    destruct (submit_all_spawned _ _ _ Hin) as [i ->]. apply Hexit. }
  destruct (collect_exits [] Hall) as [outcomes [Hc Hf]]. simpl in Hc.
  destruct (summarize_returns (plan_jobs pl) outcomes Hz)
    as [s [Hs [Htot Hcnt]]].
  assert (Hstart : started (Z.to_nat (Z.of_nat (length gpu_ids) * per_gpu_jobs))
                           (submit_all w (plan_jobs pl))
                   = submit_all w (plan_jobs pl)).
  { apply started_all; [lia|]. apply Forall_forall. intros jp Hin.
    destruct (submit_all_spawned _ _ _ Hin) as [i ->].
    destruct (Hexit i (fst jp)) as [rc [out [err [d ->]]]]. reflexivity. }
  exists pl, outcomes, s. repeat split; try assumption.
  unfold main. rewrite Hprep, (pool_executor_accepts Htotal). cbv zeta.
  rewrite Hstart, Hc, Hs. reflexivity.
Qed.


Lemma quiet_world_orderly : orderly quiet_world.
Proof.
  split.
  - intros l. apply Permutation_refl.
  - intros i j. simpl. eauto.
Qed.


(** X10: a run of [main] that reaches its summary leaves no chunk file:
    with [--split_input] the input files of the launched jobs are gone
    at the end, a file that had the name of a chunk before the run
    included, and every other file reads as before the run; without
    [--split_input] the file system is the one before the run. *)
Theorem main_removes_chunk_files (w : world) (fs : filesystem)
    (config input_file : str) (gpu_ids : list Z) (per_gpu_jobs : Z)
    (split_input : bool) :
  gpu_ids <> [] ->
  (1 <= per_gpu_jobs)%Z ->
  (split_input = true -> fs_exists fs input_file = true) ->
  orderly w ->
  PrimFloat.is_zero (batch_time w) = false ->
  let r := main w fs config input_file gpu_ids per_gpu_jobs split_input in
  (split_input = false -> final_fs r = fs) /\
  (split_input = true ->
   forall path,
     (In path (map job_input_file (launched r)) ->
      fs_read (final_fs r) path = None) /\
     (~ In path (map job_input_file (launched r)) ->
      fs_read (final_fs r) path = fs_read fs path)).
Proof.
  intros Hne Hper Hfile Hord Hz. cbv zeta.
  destruct (main_orderly fs config input_file Hne Hper Hfile Hord Hz)
    as [pl [results [s [Hprep [_ [_ [_ [_ ->]]]]]]]].
  destruct (prepare_jobs_valid fs config input_file Hne Hper Hfile)
    as [pl' [Hprep' [Hoff Hon]]].
  assert (pl' = pl) by congruence. subst pl'.
  cbn [final_fs launched]. split.
  - intros ->. now destruct (Hoff eq_refl).
  - intros ->. destruct (Hon eq_refl) as [Hinputs [Hframe _]].
    intros path. rewrite Hinputs.
    destruct (cleanup_removes_chunks (plan_chunk_files pl) (plan_fs pl) path)
      as [Hin Hout].
    split; [exact Hin|].
    intros Hnot. rewrite (Hout Hnot). now apply Hframe.
Qed.

Lemma main_removes_chunk_files_witness :
  (true = false ->
   final_fs (main quiet_world five_prompts (lit "c.yaml") (lit "prompts.txt")
               [0; 1]%Z 1 true) = five_prompts) /\
  (true = true ->
   forall path,
     (In path (map job_input_file
                 (launched (main quiet_world five_prompts (lit "c.yaml")
                              (lit "prompts.txt") [0; 1]%Z 1 true))) ->
      fs_read (final_fs (main quiet_world five_prompts (lit "c.yaml")
                           (lit "prompts.txt") [0; 1]%Z 1 true)) path = None) /\
     (~ In path (map job_input_file
                   (launched (main quiet_world five_prompts (lit "c.yaml")
                                (lit "prompts.txt") [0; 1]%Z 1 true))) ->
      fs_read (final_fs (main quiet_world five_prompts (lit "c.yaml")
                           (lit "prompts.txt") [0; 1]%Z 1 true)) path
      = fs_read five_prompts path)).
Proof.
  apply (@main_removes_chunk_files quiet_world five_prompts (lit "c.yaml")
           (lit "prompts.txt") [0; 1]%Z 1%Z true).
  - discriminate.
  - lia.
  - reflexivity.
  - exact quiet_world_orderly.
  - reflexivity.
Defined.

(** X11: when the launcher is missing, so that no process can be launched,
    a run of [main] with [--split_input] on a workload that is not empty
    ends with [FileNotFoundError], without a summary and before the
    cleanup: the chunk file of every job is still there at the end. *)
Theorem main_crash_keeps_chunk_files (w : world) (fs : filesystem)
    (config input_file raw : str) (gpu_ids : list Z) (per_gpu_jobs : Z) :
  gpu_ids <> [] ->
  (1 <= per_gpu_jobs)%Z ->
  fs_read fs input_file = Some raw ->
  stripped_lines (universal_newlines raw) <> [] ->
  (forall l, Permutation l (completion_order w l)) ->
  (forall i j, spawn w i j = CannotLaunch) ->
  let r := main w fs config input_file gpu_ids per_gpu_jobs true in
  outcome_of_run r = Crashed FileNotFoundError /\
  launched r <> [] /\
  Forall (fun j => fs_exists (final_fs r) (job_input_file j) = true)
         (launched r).
Proof.
  intros Hne Hper Hread Hlines Hperm Hspawn. cbv zeta.
  assert (Hfile : true = true -> fs_exists fs input_file = true).
  { intros _. unfold fs_exists. now rewrite Hread. }
  destruct (prepare_jobs_valid fs config input_file Hne Hper Hfile)
    as [pl [Hprep [_ Hon]]].
  destruct (Hon eq_refl) as [Hinputs [_ [Hexists Hempty]]].
  assert (Htotal : (1 <= Z.of_nat (length gpu_ids) * per_gpu_jobs)%Z).
  { destruct gpu_ids; [contradiction | simpl length; nia]. }
  assert (Hjobs : plan_jobs pl <> []).
  { intros Hnil. rewrite Hnil in Hinputs. simpl in Hinputs.
    destruct Hempty as [Hempty _]. rewrite <- Hinputs in Hempty.
    destruct (Hempty eq_refl) as [raw' [Hr He]].
    assert (raw' = raw) by congruence. subst raw'. contradiction. }
  assert (Hquick : Forall (fun jp => never_exits (snd jp) = false)
                           (submit_all w (plan_jobs pl))).
  { apply Forall_forall. intros jp Hin.
    destruct (submit_all_spawned _ _ _ Hin) as [i ->].
    now rewrite Hspawn. }
  assert (Hstart : started (Z.to_nat (Z.of_nat (length gpu_ids) * per_gpu_jobs))
                           (submit_all w (plan_jobs pl))
                   = submit_all w (plan_jobs pl))
    by (apply started_all; [lia | exact Hquick]).
  assert (Hnone : existsb (fun jp => never_exits (snd jp))
                          (submit_all w (plan_jobs pl)) = false).
  { apply not_true_is_false. intros Hex.
    apply existsb_exists in Hex as [jp [Hin Hjp]].
    rewrite Forall_forall in Hquick. rewrite (Hquick jp Hin) in Hjp.
    discriminate. }
  assert (Hcollect : collect (completion_order w (submit_all w (plan_jobs pl)))
                             [] = Aborted FileNotFoundError []).
  { pose proof (Hperm (submit_all w (plan_jobs pl))) as Hp.
    destruct (completion_order w (submit_all w (plan_jobs pl)))
      as [|[j p] rest] eqn:Harr.
    - apply Permutation_sym, Permutation_nil in Hp.
      apply (f_equal (map fst)) in Hp. rewrite submit_all_fst in Hp.
      contradiction.
    - assert (Hin : In (j, p) (submit_all w (plan_jobs pl))).
      { apply (Permutation_in _ (Permutation_sym Hp)). now left. }
      destruct (submit_all_spawned _ _ _ Hin) as [i Hi]. simpl in Hi.
      rewrite Hspawn in Hi. subst p. reflexivity. }
  unfold main. rewrite Hprep, (pool_executor_accepts Htotal). cbv zeta.
  rewrite Hstart, Hcollect, Hnone.
  cbn [outcome_of_run launched final_fs]. repeat split; [exact Hjobs|].
  apply Forall_forall. intros j Hj. apply Hexists. rewrite <- Hinputs.
  now apply in_map.
Qed.

Lemma main_crash_keeps_chunk_files_witness :
  outcome_of_run (main no_launcher five_prompts (lit "c.yaml")
                    (lit "prompts.txt") [0; 1]%Z 1 true)
  = Crashed FileNotFoundError /\
  launched (main no_launcher five_prompts (lit "c.yaml") (lit "prompts.txt")
              [0; 1]%Z 1 true) <> [] /\
  Forall (fun j =>
            fs_exists (final_fs (main no_launcher five_prompts (lit "c.yaml")
                                   (lit "prompts.txt") [0; 1]%Z 1 true))
                      (job_input_file j) = true)
         (launched (main no_launcher five_prompts (lit "c.yaml")
                      (lit "prompts.txt") [0; 1]%Z 1 true)).
Proof.
  apply (@main_crash_keeps_chunk_files no_launcher five_prompts (lit "c.yaml")
           (lit "prompts.txt")
           (join [LF] [lit "a"; lit "b"; lit "c"; lit "d"; lit "e"])
           [0; 1]%Z 1%Z).
  - discriminate.
  - lia.
  - reflexivity.
  - vm_compute. discriminate.
  - intros l. apply Permutation_refl.
  - reflexivity.
Defined.

(** ** When the loop over the futures completes *)

Lemma collect_app_results (arrivals : list (job * process)) : forall results,
  collect arrivals results =
  match collect arrivals [] with
  | Completed rs => Completed (results ++ rs)
  | Aborted e rs => Aborted e (results ++ rs)
  | Stalled rs => Stalled (results ++ rs)
  end.
Proof.
  induction arrivals as [|[j p] rest IH]; intros results; simpl.
  - now rewrite app_nil_r.
  - destruct (run_inference_job j p) as [o|e|].
    + rewrite (IH (results ++ [o])), (IH [o]).
      destruct (collect rest []); now rewrite <- app_assoc.
    + now rewrite app_nil_r.
    + rewrite (IH results). now destruct (collect rest []).
Qed.

(** A job that raises instead of returning an outcome: its process cannot
    be launched, or exits after writing what is no text. *)
Definition job_raises (p : process) : bool :=
  match p with
  | CannotLaunch | ExitsUndecodable _ _ | LaunchFails => true
  | Exits _ _ _ _ | NeverExits => false
  end.

Definition job_exits (p : process) : Prop :=
  exists returncode stdout stderr duration,
    p = Exits returncode stdout stderr duration.

(** How the loop ends, from the jobs that arrive. *)
Lemma collect_cases (arrivals : list (job * process)) :
  ((exists results, collect arrivals [] = Completed results) <->
   Forall (fun jp => job_exits (snd jp)) arrivals) /\
  (forall results, collect arrivals [] = Completed results ->
                   length results = length arrivals) /\
  ((exists e results, collect arrivals [] = Aborted e results) <->
   Exists (fun jp => job_raises (snd jp) = true) arrivals) /\
  ((exists results, collect arrivals [] = Stalled results) <->
   Exists (fun jp => never_exits (snd jp) = true) arrivals /\
   ~ Exists (fun jp => job_raises (snd jp) = true) arrivals).
Proof.
  induction arrivals as [|[j p] rest [IHc [IHl [IHa IHs]]]].
  - simpl. split; [|split; [|split]].
    + split; [constructor | eauto].
    + intros results H. now injection H as <-.
    + split; [intros [e [r H]]; discriminate | intros H; inversion H].
    + split; [intros [r H]; discriminate | intros [H _]; inversion H].
  - assert (Hraise : forall e,
              run_inference_job j p = Raised e ->
              ((exists results, collect ((j, p) :: rest) [] = Completed results)
               <-> Forall (fun jp => job_exits (snd jp)) ((j, p) :: rest)) /\
              (forall results,
                 collect ((j, p) :: rest) [] = Completed results ->
                 length results = length ((j, p) :: rest)) /\
              job_raises p = true /\
              collect ((j, p) :: rest) [] = Aborted e []).
    { intros e He. cbn [collect]. rewrite He.
      assert (Hp : job_raises p = true /\ ~ job_exits p).
      { destruct p as [|rc out err d| |rc d|]; cbn in He.
        - split; [reflexivity|]. intros [? [? [? [? Hx]]]]. discriminate.
        - unfold run_inference_job in He. cbn in He.
          destruct (rc =? 0)%Z; discriminate.
        - discriminate.
        - split; [reflexivity|]. intros [? [? [? [? Hx]]]]. discriminate.
        - split; [reflexivity|]. intros [? [? [? [? Hx]]]]. discriminate. }
      destruct Hp as [Hr Hne]. repeat split; try assumption.
      - intros [r H]. discriminate.
      - intros H. inversion H as [|? ? Hx _]. now contradiction Hne.
      - intros r H. discriminate. }
    destruct p as [|rc out err d| |rc d|].
    + (* the launcher is missing *)
      destruct (Hraise FileNotFoundError eq_refl) as [Hc [Hl [Hr Ha]]].
      split; [exact Hc|]. split; [exact Hl|]. rewrite Ha. split.
      * split; [intros _; now left | eauto].
      * split; [intros [r H]; discriminate|].
        intros [_ H]. exfalso. apply H. now left.
    + (* the process exits *)
      cbn [collect].
      destruct (run_inference_job_exit j rc out err d) as [-> _].
      rewrite collect_app_results. split; [|split; [|split]].
      * split.
        -- intros [r H]. constructor; [simpl; unfold job_exits; eauto|].
           apply IHc. destruct (collect rest []); try discriminate. eauto.
        -- intros H. inversion H as [|? ? _ Hrest]; subst.
           apply IHc in Hrest as [r ->]. eauto.
      * intros r H. destruct (collect rest []) as [rs| |] eqn:Hc;
          try discriminate.
        injection H as <-. simpl. f_equal. now apply IHl.
      * split.
        -- intros [e [r H]]. right. apply IHa.
           destruct (collect rest []); try discriminate. eauto.
        -- intros H. inversion H as [? ? Hx|? ? Hx]; subst; [discriminate Hx|].
           apply IHa in Hx as [e [r ->]]. eauto.
      * split.
        -- intros [r H].
           assert (Hs : exists results, collect rest [] = Stalled results).
           { destruct (collect rest []); try discriminate. eauto. }
           apply IHs in Hs as [Hn Hc]. split; [now right|].
           intros Hx. inversion Hx as [? ? Hy|? ? Hy]; subst;
             [discriminate Hy | now apply Hc].
        -- intros [Hn Hc].
           assert (Hs : exists results, collect rest [] = Stalled results).
           { apply IHs. split.
             - inversion Hn as [? ? Hx|? ? Hx]; subst;
                 [discriminate Hx | exact Hx].
             - intros Hx. apply Hc. now right. }
           destruct Hs as [r ->]. eauto.
    + (* the process never exits *)
      cbn. split; [|split; [|split]].
      * split; [intros [r H]; destruct (collect rest []); discriminate|].
        intros H. inversion H as [|? ? [? [? [? [? Hx]]]] _]. discriminate Hx.
      * intros r H. destruct (collect rest []); discriminate.
      * split.
        -- intros [e [r H]]. right. apply IHa.
           destruct (collect rest []); try discriminate. eauto.
        -- intros H. inversion H as [? ? Hx|? ? Hx]; subst; [discriminate Hx|].
           apply IHa in Hx as [e [r ->]]. eauto.
      * split.
        -- intros [r H]. split; [now left|]. intros Hx.
           inversion Hx as [? ? Hy|? ? Hy]; subst; [discriminate Hy|].
           apply IHa in Hy as [e [r' Hy]]. rewrite Hy in H. discriminate.
        -- intros [_ Hc].
           destruct (collect rest []) as [rs|e rs|rs] eqn:Hcol; eauto.
           exfalso. apply Hc. right. apply IHa. eauto.
    + (* the output is no text *)
      destruct (Hraise UnicodeDecodeError eq_refl) as [Hc [Hl [Hr Ha]]].
      split; [exact Hc|]. split; [exact Hl|]. rewrite Ha. split.
      * split; [intros _; now left | eauto].
      * split; [intros [r H]; discriminate|].
        intros [_ H]. exfalso. apply H. now left.
    + (* the launch fails *)
      destruct (Hraise OSError eq_refl) as [Hc [Hl [Hr Ha]]].
      split; [exact Hc|]. split; [exact Hl|]. rewrite Ha. split.
      * split; [intros _; now left | eauto].
      * split; [intros [r H]; discriminate|].
        intros [_ H]. exfalso. apply H. now left.
Qed.

Lemma started_In (submitted : list (job * process)) : forall workers jp,
  In jp (started workers submitted) -> In jp submitted.
Proof.
  induction submitted as [|[j p] rest IH]; intros workers jp Hin.
  - destruct workers; contradiction.
  - destruct workers as [|free]; [contradiction|].
    cbn [started] in Hin. destruct Hin as [<-|Hin]; [now left|].
    right. exact (IH _ _ Hin).
Qed.

(** When no job that is started keeps its worker, every job is started. *)
Lemma started_none_stuck (submitted : list (job * process)) : forall workers,
  1 <= workers ->
  Forall (fun jp => never_exits (snd jp) = false) (started workers submitted) ->
  started workers submitted = submitted.
Proof.
  induction submitted as [|[j p] rest IH]; intros workers Hw Hall.
  - destruct workers; reflexivity.
  - destruct workers as [|free]; [lia|].
    cbn [started] in *. inversion Hall as [|? ? Hp Hrest]; subst.
    simpl in Hp. rewrite Hp in *. f_equal. now apply IH.
Qed.

Lemma job_exits_not_stuck (p : process) : job_exits p -> never_exits p = false.
Proof. intros [rc [out [err [d ->]]]]. reflexivity. Qed.

(** X12: how the loop over [as_completed] ends, for a pool of one worker
    at least. It completes exactly when the process of every submitted
    job exits after writing an output that is text, and then it holds one
    outcome for each job. It ends with an exception exactly when a job
    that the pool gets to start raises: its process cannot be launched,
    or exits after writing what is no text. It waits for ever exactly
    when some process never exits and no job that gets started raises. A
    job is not started when as many jobs before it as there are workers
    never return. *)
Theorem pool_loop_ends (workers : nat)
    (submitted arrivals : list (job * process)) :
  1 <= workers ->
  Permutation (started workers submitted) arrivals ->
  ((exists results, collect arrivals [] = Completed results) <->
   Forall (fun jp => job_exits (snd jp)) submitted) /\
  (forall results, collect arrivals [] = Completed results ->
                   length results = length submitted) /\
  ((exists e results, collect arrivals [] = Aborted e results) <->
   Exists (fun jp => job_raises (snd jp) = true)
          (started workers submitted)) /\
  ((exists results, collect arrivals [] = Stalled results) <->
   Exists (fun jp => never_exits (snd jp) = true) submitted /\
   ~ Exists (fun jp => job_raises (snd jp) = true)
            (started workers submitted)).
Proof.
  intros Hw Hperm.
  destruct (collect_cases arrivals) as [Hc [Hl [Ha Hs]]].
  assert (Hexits : Forall (fun jp => job_exits (snd jp)) arrivals ->
                   started workers submitted = submitted).
  { intros Hall. apply started_none_stuck; [exact Hw|].
    apply Forall_forall. intros jp Hin. apply job_exits_not_stuck.
    rewrite Forall_forall in Hall. apply Hall.
    exact (Permutation_in _ Hperm Hin). }
  assert (HpermE : forall P : job * process -> Prop,
             Exists P arrivals <-> Exists P (started workers submitted)).
  { intros P. rewrite !Exists_exists. split; intros [jp [Hin HP]]; exists jp;
      (split; [|exact HP]).
    - exact (Permutation_in _ (Permutation_sym Hperm) Hin).
    - exact (Permutation_in _ Hperm Hin). }
  split; [|split; [|split]].
  - rewrite Hc. split.
    + intros Hall. pose proof (Hexits Hall) as Heq. rewrite Heq in Hperm.
      rewrite Forall_forall in *. intros jp Hin. apply Hall.
      exact (Permutation_in _ Hperm Hin).
    + intros Hall.
      assert (Heq : started workers submitted = submitted).
      { apply started_all; [exact Hw|].
        eapply Forall_impl; [|exact Hall]. intros jp.
        apply job_exits_not_stuck. }
      rewrite Heq in Hperm. rewrite Forall_forall in *. intros jp Hin.
      apply Hall. exact (Permutation_in _ (Permutation_sym Hperm) Hin).
  - intros results Hr. rewrite (Hl results Hr).
    assert (Hall : Forall (fun jp => job_exits (snd jp)) arrivals)
      by (apply Hc; eauto).
    rewrite <- (Permutation_length Hperm). now rewrite (Hexits Hall).
  - rewrite Ha. apply HpermE.
  - rewrite Hs, !HpermE. split.
    + intros [Hn Hr]. split; [|exact Hr].
      apply Exists_exists in Hn as [jp [Hin Hjp]].
      apply Exists_exists. exists jp. split; [|exact Hjp].
      exact (started_In _ _ _ Hin).
    + intros [Hn Hr]. split; [|exact Hr].
      destruct (existsb (fun jp => never_exits (snd jp))
                        (started workers submitted)) eqn:Hex.
      * apply existsb_exists in Hex as [jp [Hin Hjp]].
        apply Exists_exists. now exists jp.
      * assert (Heq : started workers submitted = submitted).
        { apply started_none_stuck; [exact Hw|].
          apply Forall_forall. intros jp Hin.
          destruct (never_exits (snd jp)) eqn:Hjp; [|reflexivity].
          assert (existsb (fun jp => never_exits (snd jp))
                          (started workers submitted) = true)
            by (apply existsb_exists; now exists jp).
          congruence. }
        now rewrite Heq.
Qed.

(** Three jobs for two workers: the first two never exit, the third, whose
    launcher is missing, is never started. *)
Lemma pool_loop_ends_witness :
  ((exists results,
      collect (started 2 [(job0, NeverExits); (job0, NeverExits);
                          (job0, CannotLaunch)]) [] = Stalled results) <->
   Exists (fun jp => never_exits (snd jp) = true)
          [(job0, NeverExits); (job0, NeverExits); (job0, CannotLaunch)] /\
   ~ Exists (fun jp => job_raises (snd jp) = true)
            (started 2 [(job0, NeverExits); (job0, NeverExits);
                        (job0, CannotLaunch)])) /\
  collect (started 2 [(job0, NeverExits); (job0, NeverExits);
                      (job0, CannotLaunch)]) [] = Stalled [].
Proof.
  split; [|reflexivity].
  apply (@pool_loop_ends 2
           [(job0, NeverExits); (job0, NeverExits); (job0, CannotLaunch)]
           (started 2 [(job0, NeverExits); (job0, NeverExits);
                       (job0, CannotLaunch)])).
  - lia.
  - apply Permutation_refl.
Defined.

(** ** [run_benchmark] *)

Lemma last_chars_suffix (n : nat) (s : str) :
  length (last_chars n s) = Nat.min n (length s) /\
  exists pre, s = pre ++ last_chars n s.
Proof.
  unfold last_chars. split.
  - rewrite length_skipn. lia.
  - exists (firstn (length s - n) s). now rewrite firstn_skipn.
Qed.

(** A process that [run_benchmark] kills: it is still running after 1800
    seconds. *)
Definition outlives_benchmark (p : process) : Prop :=
  p = NeverExits \/
  (exists returncode stdout stderr duration,
     p = Exits returncode stdout stderr duration /\
     PrimFloat.ltb benchmark_timeout duration = true) \/
  (exists returncode duration,
     p = ExitsUndecodable returncode duration /\
     PrimFloat.ltb benchmark_timeout duration = true).

Ltac unpack :=
  repeat match goal with
         | H : exists _, _ |- _ => destruct H
         | H : _ /\ _ |- _ => destruct H
         | H : _ \/ _ |- _ => destruct H
         | H : outlives_benchmark _ |- _ => unfold outlives_benchmark in H
         end;
  try discriminate;
  repeat match goal with
         | H : Exits _ _ _ _ = Exits _ _ _ _ |- _ =>
             injection H; clear H; intros
         | H : ExitsUndecodable _ _ = ExitsUndecodable _ _ |- _ =>
             injection H; clear H; intros
         end;
  subst; try congruence.

(** X13: the ways [run_benchmark] ends. It never waits for ever. It
    raises exactly when the process cannot be launched, when a process
    that exits within 1800 seconds wrote what is no text, or when the
    metrics of a process that exits with code 0 within 1800 seconds
    cannot be read. It returns a success exactly when the process exits
    with code 0 within 1800 seconds and the metrics are read, with the
    last 1000 characters of the output. It returns a failure exactly when
    the process is still running after 1800 seconds, with the error
    ["timeout"], or exits within 1800 seconds with another code than 0,
    with the last 500 characters of the standard error as error; a
    failure holds neither output nor metrics. *)
Theorem run_benchmark_returns (metrics : Set) (scrape : str -> result metrics)
    (config_file test_input description : str) (p : process) :
  let r := run_benchmark scrape config_file test_input description p in
  r <> Pending /\
  (forall e,
     r = Raised e <->
     (p = CannotLaunch /\ e = FileNotFoundError) \/
     (p = LaunchFails /\ e = OSError) \/
     (exists returncode duration,
        p = ExitsUndecodable returncode duration /\
        PrimFloat.ltb benchmark_timeout duration = false /\
        e = UnicodeDecodeError) \/
     (exists stdout stderr duration,
        p = Exits 0 stdout stderr duration /\
        PrimFloat.ltb benchmark_timeout duration = false /\
        scrape stdout = Raise e)) /\
  (forall b,
     r = Returned b /\ b_success b = true <->
     exists stdout stderr duration m,
       p = Exits 0 stdout stderr duration /\
       PrimFloat.ltb benchmark_timeout duration = false /\
       scrape stdout = Ok m /\
       b = mk_benchmark config_file description true duration (Some m)
             (Some (last_chars 1000 stdout)) None) /\
  (forall b,
     r = Returned b /\ b_success b = false <->
     (outlives_benchmark p /\
      b = mk_benchmark config_file description false benchmark_timeout
            None None (Some (lit "timeout"))) \/
     (exists returncode stdout stderr duration,
        p = Exits returncode stdout stderr duration /\
        returncode <> 0%Z /\
        PrimFloat.ltb benchmark_timeout duration = false /\
        b = mk_benchmark config_file description false duration
              None None (Some (last_chars 500 stderr)))) /\
  (forall n s, length (last_chars n s) <= n /\
               exists pre, s = pre ++ last_chars n s).
Proof.
  cbv zeta. unfold run_benchmark, subprocess_run, elapsed_time.
  split; [|split; [|split; [|split]]].
  - destruct p as [|rc out err d| |rc d|]; try discriminate.
    + destruct (PrimFloat.ltb benchmark_timeout d); [discriminate|].
      destruct (rc =? 0)%Z; [|discriminate].
      cbn [cp_stdout]. destruct (scrape out); discriminate.
    + destruct (PrimFloat.ltb benchmark_timeout d); discriminate.
  - intros e. destruct p as [|rc out err d| |rc d|].
    + split; [intros H; injection H as <-; now left | intros H; unpack].
    + destruct (PrimFloat.ltb benchmark_timeout d) eqn:Hexp.
      * split; [discriminate | intros H; unpack].
      * destruct (Z.eqb_spec rc 0) as [->|Hrc].
        -- cbn [cp_stdout]. destruct (scrape out) as [m|e'] eqn:Hscrape.
           ++ split; [discriminate | intros H; unpack].
           ++ split.
              ** intros H. injection H as <-. right. right. right.
                 now exists out, err, d.
              ** intros H; unpack.
        -- split; [discriminate | intros H; unpack].
    + split; [discriminate | intros H; unpack].
    + destruct (PrimFloat.ltb benchmark_timeout d) eqn:Hexp.
      * split; [discriminate | intros H; unpack].
      * split.
        -- intros H. injection H as <-. right. right. left. now exists rc, d.
        -- intros H; unpack.
    + split; [intros H; injection H as <-; right; now left | intros H; unpack].
  - intros b. destruct p as [|rc out err d| |rc d|].
    + split; [intros [H _]; discriminate | intros H; unpack].
    + destruct (PrimFloat.ltb benchmark_timeout d) eqn:Hexp.
      * split; [intros [H Hb]; injection H as <-; discriminate Hb
               | intros H; unpack].
      * destruct (Z.eqb_spec rc 0) as [->|Hrc].
        -- cbn [cp_stdout]. destruct (scrape out) as [m|e'] eqn:Hscrape.
           ++ split.
              ** intros [H _]. injection H as <-. now exists out, err, d, m.
              ** intros H; unpack. split; [|reflexivity].
                 repeat f_equal. congruence.
           ++ split; [intros [H _]; discriminate | intros H; unpack].
        -- split; [intros [H Hb]; injection H as <-; discriminate Hb
                  | intros H; unpack].
    + split; [intros [H Hb]; injection H as <-; discriminate Hb
             | intros H; unpack].
    + destruct (PrimFloat.ltb benchmark_timeout d) eqn:Hexp.
      * split; [intros [H Hb]; injection H as <-; discriminate Hb
               | intros H; unpack].
      * split; [intros [H _]; discriminate | intros H; unpack].
    + split; [intros [H _]; discriminate | intros H; unpack].
  - intros b. destruct p as [|rc out err d| |rc d|].
    + split; [intros [H _]; discriminate | intros H; unpack].
    + destruct (PrimFloat.ltb benchmark_timeout d) eqn:Hexp.
      * split.
        -- intros [H _]. injection H as <-. left. split; [|reflexivity].
           right. left. now exists rc, out, err, d.
        -- intros H; unpack; now split.
      * destruct (Z.eqb_spec rc 0) as [->|Hrc].
        -- cbn [cp_stdout]. destruct (scrape out) as [m|e'] eqn:Hscrape.
           ++ split; [intros [H Hb]; injection H as <-; discriminate Hb
                     | intros H; unpack].
           ++ split; [intros [H _]; discriminate | intros H; unpack].
        -- split.
           ++ intros [H _]. injection H as <-. right.
              now exists rc, out, err, d.
           ++ intros H; unpack. now split.
    + split.
      * intros [H _]. injection H as <-. left. split; [now left | reflexivity].
      * intros H; unpack; now split.
    + destruct (PrimFloat.ltb benchmark_timeout d) eqn:Hexp.
      * split.
        -- intros [H _]. injection H as <-. left. split; [|reflexivity].
           right. right. now exists rc, d.
        -- intros H; unpack; now split.
      * split; [intros [H _]; discriminate | intros H; unpack].
    + split; [intros [H _]; discriminate | intros H; unpack].
  - intros n s'. destruct (last_chars_suffix n s') as [Hlen Hpre].
    split; [lia | exact Hpre].
Qed.

(** ** The setup test *)

Lemma check_files_flag (fs : filesystem) (files : list str) :
  forall all_exist,
    check_files fs files all_exist
    = all_exist && forallb (fs_exists fs) files.
Proof.
  unfold check_files.
  induction files as [|f files IH]; intros all_exist; simpl.
  - now rewrite andb_true_r.
  - rewrite IH. destruct (fs_exists fs f); simpl;
      [reflexivity | now rewrite andb_false_r].
Qed.

(** X14: [test_file_existence] answers [True] exactly when each of the
    five required files exists; one missing file is enough for [False],
    wherever it is in the list. *)
Theorem test_file_existence_iff (fs : filesystem) :
  test_file_existence fs = true <->
  forall file_path, In file_path required_files ->
                    fs_exists fs file_path = true.
Proof.
  unfold test_file_existence. rewrite check_files_flag, andb_true_l.
  apply forallb_forall.
Qed.

Lemma startswith_iff (prefix : str) : forall s,
  startswith s prefix = true <-> exists suf, s = prefix ++ suf.
Proof.
  induction prefix as [|p prefix IH]; intros s.
  - destruct s; simpl; split; eauto.
  - destruct s as [|c s]; simpl.
    + split; [discriminate | intros [suf H]; discriminate].
    + rewrite andb_true_iff, IH, N.eqb_eq. split.
      * intros [-> [suf ->]]. now exists suf.
      * intros [suf H]. injection H as -> ->. split; [reflexivity | now exists suf].
Qed.

Lemma contains_iff (needle : str) : forall s,
  contains s needle = true <-> exists pre suf, s = pre ++ needle ++ suf.
Proof.
  induction s as [|c s IH]; cbn [contains];
    rewrite orb_true_iff, startswith_iff.
  - split.
    + intros [[suf H]|H]; [|discriminate]. now exists [], suf.
    + intros [pre [suf H]]. left.
      destruct pre; [now exists suf | discriminate].
  - rewrite IH. split.
    + intros [[suf H]|[pre [suf H]]].
      * now exists [], suf.
      * exists (c :: pre), suf. simpl. now rewrite H.
    + intros [pre [suf H]]. destruct pre as [|c' pre].
      * left. now exists suf.
      * right. injection H as _ H. now exists pre, suf.
Qed.

(** X15: [test_wav2vec_fix] answers [True] exactly when the file
    [OmniAvatar/models/wav2vec.py] exists and its text, as read, holds
    both settings of [output_attentions], the one to [False] and the one
    to [True], in whatever order; a file that is missing gives [False]
    and no exception. *)
Theorem test_wav2vec_fix_iff (fs : filesystem) :
  test_wav2vec_fix fs = true <->
  exists raw,
    fs_read fs wav2vec_path = Some raw /\
    (exists pre suf, universal_newlines raw = pre ++ forward_setting ++ suf) /\
    (exists pre suf, universal_newlines raw = pre ++ encode_setting ++ suf).
Proof.
  unfold test_wav2vec_fix, open_read.
  destruct (fs_read fs wav2vec_path) as [raw|].
  - split.
    + intros H. exists raw. split; [reflexivity|].
      destruct (contains (universal_newlines raw) forward_setting) eqn:H1;
        [|discriminate].
      destruct (contains (universal_newlines raw) encode_setting) eqn:H2;
        [|discriminate].
      split; now apply contains_iff.
    + intros [raw' [Hr [H1 H2]]]. injection Hr as <-.
      apply contains_iff in H1, H2. now rewrite H1, H2.
  - split; [discriminate|]. intros [raw [H _]]. discriminate.
Qed.

(** ** The load of the devices with [--split_input] *)

Lemma count_mod (m r : nat) : r < m -> forall n,
  length (filter (fun i => i mod m =? r) (seq 0 n))
  = n / m + (if r <? n mod m then 1 else 0).
Proof.
  intros Hr. induction n as [|n IH].
  - rewrite Nat.Div0.div_0_l, Nat.Div0.mod_0_l. reflexivity.
  - rewrite seq_S, filter_app, length_app, IH. rewrite Nat.add_0_l.
    cbn [filter].
    pose proof (Nat.div_mod_eq n m) as Hn.
    pose proof (Nat.mod_upper_bound n m ltac:(lia)) as Ht.
    set (q := n / m) in *. set (t := n mod m) in *.
    destruct (Nat.eq_dec (S t) m) as [Hwrap|Hstep].
    + assert (Hq : S n / m = S q)
        by (symmetry; apply (Nat.div_unique (S n) m (S q) 0); lia).
      assert (Hm : S n mod m = 0)
        by (symmetry; apply (Nat.mod_unique (S n) m (S q) 0); lia).
      rewrite Hq, Hm.
      destruct (Nat.eqb_spec t r), (Nat.ltb_spec r t), (Nat.ltb_spec r 0);
        simpl; lia.
    + assert (Hq : S n / m = q)
        by (symmetry; apply (Nat.div_unique (S n) m q (S t)); lia).
      assert (Hm : S n mod m = S t)
        by (symmetry; apply (Nat.mod_unique (S n) m q (S t)); lia).
      rewrite Hq, Hm.
      destruct (Nat.eqb_spec t r), (Nat.ltb_spec r t), (Nat.ltb_spec r (S t));
        simpl; lia.
Qed.

Lemma count_occ_map_filter {A : Type} (f : A -> Z) (g : Z) (l : list A) :
  count_occ Z.eq_dec (map f l) g = length (filter (fun a => (f a =? g)%Z) l).
Proof.
  induction l as [|a l IH]; simpl; [reflexivity|].
  destruct (Z.eq_dec (f a) g) as [->|Hne].
  - rewrite Z.eqb_refl. simpl. now rewrite IH.
  - destruct (Z.eqb_spec (f a) g); [contradiction | exact IH].
Qed.

Lemma chunk_job_gpus (config : str) (gpu_ids : list Z)
    (chunk_files : list str) : forall start,
  map job_gpu_id
      (map (fun kf => chunk_job config gpu_ids (fst kf) (snd kf))
           (combine (seq start (length chunk_files)) chunk_files))
  = map (fun i => nth (i mod length gpu_ids) gpu_ids 0%Z)
        (seq start (length chunk_files)).
Proof.
  induction chunk_files as [|c rest IH]; intros start; simpl;
    [reflexivity | now rewrite IH].
Qed.

(** X16: with a list of distinct devices, the chunks are spread evenly:
    of [n] chunks over [m] devices, each device gets [n // m] jobs or one
    more, the devices at the head of the list first. *)
Theorem chunk_jobs_balanced (config : str) (gpu_ids : list Z)
    (chunk_files : list str) (r : nat) :
  NoDup gpu_ids ->
  r < length gpu_ids ->
  exists jobs,
    chunk_jobs config gpu_ids 0 chunk_files = Ok jobs /\
    count_occ Z.eq_dec (map job_gpu_id jobs) (nth r gpu_ids 0%Z)
    = length chunk_files / length gpu_ids
      + (if r <? length chunk_files mod length gpu_ids then 1 else 0).
Proof.
  intros Hnd Hr.
  assert (Hne : gpu_ids <> []) by (destruct gpu_ids; simpl in *; [lia | discriminate]).
  eexists. split; [now apply chunk_jobs_eq|].
  rewrite chunk_job_gpus, count_occ_map_filter, <- (count_mod Hr).
  f_equal. apply filter_ext. intros i.
  assert (Hi : i mod length gpu_ids < length gpu_ids)
    by (apply Nat.mod_upper_bound; lia).
  destruct (Nat.eqb_spec (i mod length gpu_ids) r) as [->|Hir].
  - apply Z.eqb_refl.
  - apply Z.eqb_neq. intros Heq. apply Hir.
    exact (proj1 (NoDup_nth gpu_ids 0%Z) Hnd _ _ Hi Hr Heq).
Qed.

Lemma chunk_jobs_balanced_witness :
  exists jobs,
    chunk_jobs (lit "c.yaml") [0; 1; 2]%Z 0
               (map (chunk_name (lit "p")) (seq 0 5)) = Ok jobs /\
    count_occ Z.eq_dec (map job_gpu_id jobs) (nth 1 [0; 1; 2]%Z 0%Z)
    = length (map (chunk_name (lit "p")) (seq 0 5)) / length [0; 1; 2]%Z
      + (if 1 <? length (map (chunk_name (lit "p")) (seq 0 5))
                 mod length [0; 1; 2]%Z
         then 1 else 0).
Proof.
  apply (@chunk_jobs_balanced (lit "c.yaml") [0; 1; 2]%Z
           (map (chunk_name (lit "p")) (seq 0 5)) 1).
  - repeat constructor; simpl; intuition discriminate.
  - simpl. lia.
Defined.

(** ** The plan with [--split_input] *)

Lemma chunk_job_suffixes (config : str) (gpu_ids : list Z)
    (chunk_files : list str) : forall start,
  map job_output_suffix
      (map (fun kf => chunk_job config gpu_ids (fst kf) (snd kf))
           (combine (seq start (length chunk_files)) chunk_files))
  = map (fun i => lit "chunk_" ++ str_of_nat i)
        (seq start (length chunk_files)).
Proof.
  induction chunk_files as [|c rest IH]; intros start; simpl;
    [reflexivity | now rewrite IH].
Qed.

(** X17: with [--split_input], a device list that is not empty,
    [per_gpu_jobs >= 1] and an input file that exists, the plan has one
    job for each chunk file written: no two jobs read the same file, no
    job reads the input file itself, and no two jobs have the same
    label. *)
Theorem prepare_jobs_split (fs : filesystem) (config input_file : str)
    (gpu_ids : list Z) (per_gpu_jobs : Z) :
  gpu_ids <> [] ->
  (1 <= per_gpu_jobs)%Z ->
  fs_exists fs input_file = true ->
  exists pl,
    prepare_jobs fs config input_file gpu_ids per_gpu_jobs true = Ok pl /\
    map job_input_file (plan_jobs pl) = plan_chunk_files pl /\
    NoDup (map job_input_file (plan_jobs pl)) /\
    ~ In input_file (map job_input_file (plan_jobs pl)) /\
    NoDup (map job_output_suffix (plan_jobs pl)) /\
    Forall (fun j => job_config_file j = config) (plan_jobs pl).
Proof.
  intros Hne Hper Hfile. unfold fs_exists in Hfile.
  destruct (fs_read fs input_file) as [raw|] eqn:Hread; [|discriminate].
  assert (Htotal : (Z.of_nat (length gpu_ids) * per_gpu_jobs <> 0)%Z).
  { destruct gpu_ids; [contradiction | simpl length; nia]. }
  assert (Hopen : open_read fs input_file = Ok (universal_newlines raw)).
  { unfold open_read. now rewrite Hread. }
  pose proof (@chunk_size_of_Ok (stripped_lines (universal_newlines raw))
                _ Htotal) as Hsize.
  pose proof (split_input_file_eq _ _ _ Hopen Hsize) as Heq.
  cbv zeta in Heq. unfold prepare_jobs. rewrite Heq. cbn [bind snd fst].
  rewrite (chunk_jobs_eq config _ Hne 0). cbn [bind].
  eexists. split; [reflexivity|]. cbn [plan_jobs plan_chunk_files].
  rewrite chunk_job_inputs, chunk_job_suffixes.
  split; [reflexivity|]. split; [apply chunk_names_NoDup|]. split; [|split].
  - intros Hin. apply in_map_iff in Hin as [k [Hk _]].
    exact (@chunk_name_not_input _ _ Hk).
  - apply Injective_map_NoDup; [|apply seq_NoDup].
    intros a b Hab. apply app_inv_head in Hab. now apply str_of_nat_inj.
  - apply Forall_forall. intros j Hj.
    apply in_map_iff in Hj as [kf [<- _]]. reflexivity.
Qed.

Lemma prepare_jobs_split_witness :
  exists pl,
    prepare_jobs five_prompts (lit "c.yaml") (lit "prompts.txt") [0; 1]%Z 1 true
    = Ok pl /\
    map job_input_file (plan_jobs pl) = plan_chunk_files pl /\
    NoDup (map job_input_file (plan_jobs pl)) /\
    ~ In (lit "prompts.txt") (map job_input_file (plan_jobs pl)) /\
    NoDup (map job_output_suffix (plan_jobs pl)) /\
    Forall (fun j => job_config_file j = lit "c.yaml") (plan_jobs pl).
Proof.
  apply (@prepare_jobs_split five_prompts (lit "c.yaml") (lit "prompts.txt")
           [0; 1]%Z 1%Z).
  - discriminate.
  - lia.
  - reflexivity.
Defined.

(** ** The progress lines *)

Lemma progress_counts (jobs : list job) (arrivals : list (job * process)) :
  forall results,
    map (fun line => fst (fst (fst line))) (progress jobs arrivals results)
    = seq (S (length results)) (length (progress jobs arrivals results)) /\
    Forall (fun line =>
              snd (fst (fst line)) = length jobs /\
              snd (fst line) + snd line = fst (fst (fst line)))
           (progress jobs arrivals results).
Proof.
  induction arrivals as [|[j p] rest IH]; intros results; simpl.
  - split; [reflexivity | constructor].
  - destruct (run_inference_job j p) as [o|e|].
    + destruct (IH (results ++ [o])) as [Hseq Hall]. split.
      * simpl. rewrite Hseq. rewrite length_app. simpl.
        now rewrite Nat.add_1_r.
      * constructor; [|exact Hall]. simpl. split; [reflexivity|].
        apply filter_partition_length.
    + split; [reflexivity | constructor].
    + apply IH.
Qed.

Lemma progress_length_completed (jobs : list job)
    (arrivals : list (job * process)) : forall acc acc' results,
  collect arrivals acc = Completed results ->
  length (progress jobs arrivals acc') = length arrivals.
Proof.
  induction arrivals as [|[j p] rest IH]; intros acc acc' results Hc;
    [reflexivity|].
  simpl in *. destruct (run_inference_job j p) as [o|e|].
  - simpl. f_equal. exact (IH _ _ _ Hc).
  - discriminate.
  - destruct (collect rest acc); discriminate.
Qed.

(** X18: the progress lines count the results from 1 upwards, one more on
    each line, always out of the number of planned jobs; on each line the
    successes and the failures add up to the results so far; and when the
    loop completes there are as many lines as jobs completed. *)
Theorem progress_lines (jobs : list job) (arrivals : list (job * process)) :
  map (fun line => fst (fst (fst line))) (progress jobs arrivals [])
  = seq 1 (length (progress jobs arrivals [])) /\
  Forall (fun line =>
            snd (fst (fst line)) = length jobs /\
            snd (fst line) + snd line = fst (fst (fst line)))
         (progress jobs arrivals []) /\
  (forall results, collect arrivals [] = Completed results ->
                   length (progress jobs arrivals []) = length arrivals).
Proof.
  destruct (progress_counts jobs arrivals []) as [Hseq Hall].
  split; [exact Hseq|]. split; [exact Hall|].
  intros results Hc.
  exact (@progress_length_completed jobs arrivals [] [] results Hc).
Qed.

(** ** The names of the chunk files *)

(** X19: the chunk files are numbered from 0 in the order of the lines:
    whatever the chunk size, the [k]-th file returned is
    [f"{input_file}_chunk_{k}.txt"]. *)
Theorem split_input_file_names (fs : filesystem) (input_file raw : str)
    (num_chunks : Z) :
  fs_read fs input_file = Some raw ->
  num_chunks <> 0%Z ->
  exists fs' chunks,
    split_input_file fs input_file num_chunks = Ok (fs', chunks) /\
    forall k, k < length chunks ->
      nth k chunks [] =
      input_file ++ lit "_chunk_" ++ str_of_nat k ++ lit ".txt".
Proof.
  intros Hread Hn.
  assert (Hopen : open_read fs input_file = Ok (universal_newlines raw)).
  { unfold open_read. now rewrite Hread. }
  pose proof (@chunk_size_of_Ok (stripped_lines (universal_newlines raw))
                num_chunks Hn) as Hsize.
  pose proof (split_input_file_eq _ _ _ Hopen Hsize) as Hsplit.
  cbv zeta in Hsplit. eexists. eexists. split; [exact Hsplit|].
  intros k Hk. rewrite length_map, length_seq in Hk.
  now rewrite nth_map_seq.
Qed.

Lemma split_input_file_names_witness :
  exists fs' chunks,
    split_input_file five_prompts (lit "prompts.txt") 2 = Ok (fs', chunks) /\
    forall k, k < length chunks ->
      nth k chunks [] =
      lit "prompts.txt" ++ lit "_chunk_" ++ str_of_nat k ++ lit ".txt".
Proof.
  apply (@split_input_file_names five_prompts (lit "prompts.txt")
           (join [LF] [lit "a"; lit "b"; lit "c"; lit "d"; lit "e"]) 2).
  - reflexivity.
  - discriminate.
Defined.
